(** * ainewsdemo / demo3 / web_crawler.py : the [NewsCrawler] class

    A shallow embedding of the crawler's source classifier, its content,
    title and metadata extractors and [crawl_article], with the properties
    the specification states about them.

    Conventions of the embedding.
    - Text is a Rocq [string], one [ascii] per character of the Python [str];
      the library functions that depend on the character set ([str.lower],
      [str.strip], [urlsplit]) are given on ASCII text.
    - A parsed document (the [BeautifulSoup] object) is a forest of [node]s.
      The extractors change it in place ([decompose]); they are therefore
      written in a state monad over the document, and an element handed
      around by the code ([article_content], [main_content]) is a reference
      (a path of child indices) into the document.
    - The network and the HTML parser are parameters of [crawl_article].
    - The [print] calls of [crawl_article] are left out. *)

From Stdlib Require Import Ascii String List Arith Bool Lia DecimalString.
From stdpp Require Import base option list strings gmap.
Import ListNotations.

#[local] Set Warnings "-register-all".
Local Open Scope string_scope.

(* ===================================================================== *)
(** ** Text: the [str] methods the crawler uses                          *)
(* ===================================================================== *)

Module Str.

Definition newline : string := String (ascii_of_nat 10) EmptyString.

(** [c.isspace()] on ASCII: TAB, LF, VT, FF, CR, FS, GS, RS, US, SPACE. *)
Definition isspace (c : ascii) : bool :=
  let n := nat_of_ascii c in
  (Nat.leb 9 n && Nat.leb n 13) || (Nat.leb 28 n && Nat.leb n 32).

Fixpoint lstrip_by (drop : ascii -> bool) (s : string) : string :=
  match s with
  | String c r => if drop c then lstrip_by drop r else s
  | EmptyString => EmptyString
  end.

Fixpoint rstrip_by (drop : ascii -> bool) (s : string) : string :=
  match s with
  | String c r =>
      match rstrip_by drop r with
      | EmptyString => if drop c then EmptyString else String c EmptyString
      | r' => String c r'
      end
  | EmptyString => EmptyString
  end.

(** [s.strip()] *)
Definition strip (s : string) : string := rstrip_by isspace (lstrip_by isspace s).

Definition lower_char (c : ascii) : ascii :=
  let n := nat_of_ascii c in
  if Nat.leb 65 n && Nat.leb n 90 then ascii_of_nat (n + 32) else c.

(** [s.lower()] *)
Fixpoint lower (s : string) : string :=
  match s with
  | String c r => String (lower_char c) (lower r)
  | EmptyString => EmptyString
  end.

(** [sub in s] *)
Fixpoint contains (sub s : string) : bool :=
  String.prefix sub s ||
  match s with
  | String _ r => contains sub r
  | EmptyString => false
  end.

(** [c in s] for one character *)
Fixpoint has_char (c : ascii) (s : string) : bool :=
  match s with
  | String d r => Ascii.eqb c d || has_char c r
  | EmptyString => false
  end.

(** [s.replace(c, "")] for one character *)
Fixpoint remove_char (c : ascii) (s : string) : string :=
  match s with
  | String d r => if Ascii.eqb c d then remove_char c r else String d (remove_char c r)
  | EmptyString => EmptyString
  end.

(** [sep.join(l)] *)
Fixpoint join (sep : string) (l : list string) : string :=
  match l with
  | [] => ""
  | [x] => x
  | x :: r => x ++ sep ++ join sep r
  end.

(** [not s] *)
Definition is_empty (s : string) : bool :=
  match s with EmptyString => true | _ => false end.

(** [str(n)] for a length *)
Definition of_nat (n : nat) : string := NilEmpty.string_of_uint (Nat.to_uint n).

(** [c * n] *)
Fixpoint replicate (n : nat) (c : ascii) : string :=
  match n with
  | O => EmptyString
  | S k => String c (replicate k c)
  end.

End Str.

(* ===================================================================== *)
(** ** Exceptions and results                                            *)
(* ===================================================================== *)

Inductive exn : Type :=
| ValueError (msg : string).

Inductive outcome (A : Type) : Type :=
| Returns (a : A)
| Raises (e : exn).
Arguments Returns {A} a.
Arguments Raises {A} e.

(* ===================================================================== *)
(** ** [urllib.parse.urlparse(url).netloc]                               *)
(* ===================================================================== *)

(** The network location as [urlsplit] of CPython 3.12 computes it: leading
    control characters and spaces are stripped, TAB, CR and LF removed, a
    scheme cut off, and the text after ["//"] taken up to the first of ['/'],
    ['?'], ['#'].  An unmatched bracket in it raises [ValueError]. *)

Module Url.

Definition is_alpha (c : ascii) : bool :=
  let n := nat_of_ascii c in
  (Nat.leb 65 n && Nat.leb n 90) || (Nat.leb 97 n && Nat.leb n 122).

Definition is_digit (c : ascii) : bool :=
  let n := nat_of_ascii c in Nat.leb 48 n && Nat.leb n 57.

(** [scheme_chars]: letters, digits and ["+-."] *)
Definition scheme_char (c : ascii) : bool :=
  is_alpha c || is_digit c || Str.has_char c "+-.".

(** [_WHATWG_C0_CONTROL_OR_SPACE]: the characters 0 to 32 *)
Definition c0_control_or_space (c : ascii) : bool := Nat.leb (nat_of_ascii c) 32.

(** [_UNSAFE_URL_BYTES_TO_REMOVE]: TAB, CR, LF *)
Definition remove_unsafe (url : string) : string :=
  Str.remove_char (ascii_of_nat 10)
    (Str.remove_char (ascii_of_nat 13)
      (Str.remove_char (ascii_of_nat 9) url)).

(** [url[:i], url[i+1:]] for [i = url.find(c)] *)
Fixpoint split_at (c : ascii) (s : string) : option (string * string) :=
  match s with
  | String d r =>
      if Ascii.eqb c d then Some (EmptyString, r)
      else match split_at c r with
           | Some (a, b) => Some (String d a, b)
           | None => None
           end
  | EmptyString => None
  end.

Fixpoint all_chars (p : ascii -> bool) (s : string) : bool :=
  match s with
  | String c r => p c && all_chars p r
  | EmptyString => true
  end.

(** The scheme is cut off when the text before the first [':'] is not
    empty, starts with a letter and holds scheme characters only. *)
Definition drop_scheme (url : string) : string :=
  match split_at ":" url with
  | Some (String c pre, rest) =>
      if is_alpha c && all_chars scheme_char (String c pre) then rest else url
  | _ => url
  end.

(** [_splitnetloc(url, 2)[0]]: from after ["//"] up to the first of
    ['/'], ['?'], ['#'] *)
Fixpoint upto_delim (s : string) : string :=
  match s with
  | String c r =>
      if Str.has_char c "/?#" then EmptyString else String c (upto_delim r)
  | EmptyString => EmptyString
  end.

Section Netloc.

(** [_check_bracketed_netloc(netloc)], which validates the address between
    brackets with the [ipaddress] module in the CPython releases that
    have it: [true] when it returns, [false] when it raises. *)
Variable check_bracketed_netloc : string -> bool.

(** [urlparse(url).netloc], or the [ValueError] of [urlsplit]. *)
Definition urlparse_netloc (url : string) : outcome string :=
  let url := Str.lstrip_by c0_control_or_space url in
  let url := remove_unsafe url in
  let url := drop_scheme url in
  match url with
  | String "/" (String "/" rest) =>
      let netloc := upto_delim rest in
      let lb := Str.has_char "[" netloc in
      let rb := Str.has_char "]" netloc in
      if (lb && negb rb) || (rb && negb lb) then
        Raises (ValueError "Invalid IPv6 URL")
      else if lb && rb && negb (check_bracketed_netloc netloc) then
        Raises (ValueError "Invalid IPv6 URL")
      else Returns netloc
  | _ => Returns ""
  end.

End Netloc.

End Url.

(* ===================================================================== *)
(** ** The parsed document                                               *)
(* ===================================================================== *)

(** The attributes the crawler's selectors look at: [id], and [class] as
    the list of class names bs4 keeps for it (empty when absent). *)
Record attrs : Type := Attrs { attr_id : option string; attr_class : list string }.

(** A page element: a string [get_text] collects ([NavigableString], CData);
    a string it skips (comment, doctype, the text of a script or style
    element); or a tag with its children. *)
Inductive node : Type :=
| NavigableString (s : string)
| Comment (s : string)
| Tag (name : string) (a : attrs) (contents : list node).

(** The [BeautifulSoup] object, by its top-level contents. *)
Definition soup : Type := list node.

(** A reference to an element of the document: the child indices leading
    to it from the top. *)
Definition element : Type := list nat.

Module Dom.

(** *** Reading and replacing the node a reference points to *)

Fixpoint node_at (p : list nat) (n : node) : option node :=
  match p with
  | [] => Some n
  | i :: q =>
      match n with
      | Tag _ _ contents => contents !! i ≫= node_at q
      | _ => None
      end
  end.

Definition get_at (el : element) (doc : soup) : option node :=
  match el with
  | [] => None
  | i :: q => doc !! i ≫= node_at q
  end.

Fixpoint alter_node (f : node -> node) (p : list nat) (n : node) : node :=
  match p with
  | [] => f n
  | i :: q =>
      match n with
      | Tag name a contents => Tag name a (alter (alter_node f q) i contents)
      | _ => n
      end
  end.

Definition alter_at (f : node -> node) (el : element) (doc : soup) : soup :=
  match el with
  | [] => doc
  | i :: q => alter (alter_node f q) i doc
  end.

(** *** The first tag, in document order, that passes a test *)

Section Search.

Variable test : string -> attrs -> bool.

Section Children.
Variable search_node : node -> option element.

Fixpoint search_from (i : nat) (l : list node) : option element :=
  match l with
  | [] => None
  | n :: r =>
      match search_node n with
      | Some p => Some (i :: p)
      | None => search_from (S i) r
      end
  end.
End Children.

Fixpoint search_node (n : node) : option element :=
  match n with
  | Tag name a contents =>
      if test name a then Some [] else search_from search_node 0 contents
  | _ => None
  end.

(** among the descendants of the document *)
Definition search (doc : soup) : option element := search_from search_node 0 doc.

End Search.

(** *** [el(names)] followed by [decompose()] on each result *)

Definition named (names : list string) (n : node) : bool :=
  match n with
  | Tag name _ _ => bool_decide (name ∈ names)
  | _ => false
  end.

(** [n] without its descendants named in [names]; a tag nested in a
    removed one goes with it. *)
Fixpoint decompose_in (names : list string) (n : node) : node :=
  match n with
  | Tag name a contents =>
      Tag name a
        (omap (fun c => if named names c then None else Some (decompose_in names c))
              contents)
  | _ => n
  end.

(** *** [el.get_text(separator, strip=True)] *)

Fixpoint strings (n : node) : list string :=
  match n with
  | NavigableString s => [s]
  | Comment _ => []
  | Tag _ _ contents => flat_map strings contents
  end.

Definition stripped_strings (n : node) : list string :=
  List.filter (fun s => negb (Str.is_empty s)) (map Str.strip (strings n)).

Definition text (separator : string) (n : node) : string :=
  Str.join separator (stripped_strings n).

End Dom.

(* ===================================================================== *)
(** ** Selectors                                                         *)
(* ===================================================================== *)

(** The CSS selectors of the crawler's tables all have the shape
    [tag], [tag.class], [tag[class*="s"]] or [[class*="s"]]. *)
Inductive class_test : Type :=
| AnyClass
| HasClass (c : string)
| ClassContains (s : string).

Record selector : Type := Css { sel_tag : option string; sel_class : class_test }.

(** [tag] *)
Definition css_tag (t : string) : selector := Css (Some t) AnyClass.
(** [tag.c] *)
Definition css_class (t c : string) : selector := Css (Some t) (HasClass c).
(** [tag[class*="s"]] *)
Definition css_class_sub (t s : string) : selector := Css (Some t) (ClassContains s).
(** [[class*="s"]] *)
Definition css_any_class_sub (s : string) : selector := Css None (ClassContains s).

(** soupsieve compares the lower-cased tag name of an HTML element with the
    type selector, looks the class name up in the element's class list, and
    matches [*=] against the class names joined by spaces. *)
Definition css_match (sel : selector) (name : string) (a : attrs) : bool :=
  match sel_tag sel with
  | Some t => String.eqb (Str.lower name) t
  | None => true
  end
  &&
  match sel_class sel with
  | AnyClass => true
  | HasClass c => bool_decide (c ∈ attr_class a)
  | ClassContains s => Str.contains s (Str.join " " (attr_class a))
  end.

(** The arguments of [soup.find]: a tag name, alone or with an [id] or a
    [class] value. *)
Inductive strainer : Type :=
| ByName (name : string)
| ById (name id : string)
| ByClass (name c : string).

Definition find_match (t : strainer) (name : string) (a : attrs) : bool :=
  match t with
  | ByName n => String.eqb name n
  | ById n i => String.eqb name n && bool_decide (attr_id a = Some i)
  | ByClass n c => String.eqb name n && bool_decide (c ∈ attr_class a)
  end.

(* ===================================================================== *)
(** ** The document as mutable state                                     *)
(* ===================================================================== *)

Definition M (A : Type) : Type := soup -> A * soup.

Definition ret {A} (a : A) : M A := fun doc => (a, doc).

Definition bind {A B} (m : M A) (k : A -> M B) : M B :=
  fun doc => let (a, doc') := m doc in k a doc'.

Declare Scope crawl_scope.
Delimit Scope crawl_scope with crawl.
Notation "x <- m ;; k" := (bind m (fun x => k))
  (at level 20, m at level 99, k at level 200, only parsing) : crawl_scope.
Notation "m ;; k" := (bind m (fun _ => k))
  (at level 100, k at level 200, right associativity, only parsing) : crawl_scope.
Local Open Scope crawl_scope.

(** [soup.select_one(selector)] *)
Definition select_one (sel : selector) : M (option element) :=
  fun doc => (Dom.search (css_match sel) doc, doc).

(** [soup.find(...)] *)
Definition find (t : strainer) : M (option element) :=
  fun doc => (Dom.search (find_match t) doc, doc).

(** [for x in el(names): x.decompose()] *)
Definition decompose_all (el : element) (names : list string) : M unit :=
  fun doc => (tt, Dom.alter_at (Dom.decompose_in names) el doc).

(** [el.get_text(separator=sep, strip=True)] *)
Definition get_text (el : element) (sep : string) : M string :=
  fun doc => (from_option (Dom.text sep) "" (Dom.get_at el doc), doc).

(** [soup.find(a) or soup.find(b) or ...] *)
Fixpoint find_first (ts : list strainer) : M (option element) :=
  match ts with
  | [] => ret None
  | t :: r =>
      found <- find t ;;
      match found with
      | Some el => ret (Some el)
      | None => find_first r
      end
  end.

(* ===================================================================== *)
(** ** Content extraction                                                *)
(* ===================================================================== *)

Definition specific_tags : list string := ["script"; "style"; "nav"; "footer"; "header"].
Definition fallback_tags : list string :=
  ["script"; "style"; "nav"; "footer"; "header"; "aside"].

(** The selector loop of [extract_southcn], [extract_ycwb] and
    [extract_chinanews]; [content] is the text computed so far, and the
    [break] is the branch that returns without scanning [rest]. *)
Fixpoint scan (selectors : list selector) (content : string) : M string :=
  match selectors with
  | [] => ret content
  | sel :: rest =>
      article_content <- select_one sel ;;
      match article_content with
      | Some el =>
          decompose_all el specific_tags ;;
          content <- get_text el Str.newline ;;
          if (200 <? String.length content)%nat then ret content else scan rest content
      | None => scan rest content
      end
  end.

(** [if not content or len(content) < 200: ...] of the three per-source
    extractors. *)
Definition fallback (content : string) : M string :=
  main_content <- find_first [ByName "main"; ByName "article"; ById "div" "content"] ;;
  match main_content with
  | Some el =>
      decompose_all el fallback_tags ;;
      get_text el Str.newline
  | None => ret content
  end.

Definition too_short (content : string) : bool :=
  Str.is_empty content || (String.length content <? 200)%nat.

Definition extract_with (selectors : list selector) : M string :=
  content <- scan selectors "" ;;
  if too_short content then fallback content else ret content.

Definition southcn_selectors : list selector :=
  [ css_class "div" "article-content";
    css_class "div" "content";
    css_class "div" "article-body";
    css_class_sub "div" "content";
    css_class_sub "div" "article";
    css_tag "article";
    css_class "div" "text" ].

Definition ycwb_selectors : list selector :=
  [ css_class "div" "article-content";
    css_class "div" "content";
    css_class "div" "article-body";
    css_class_sub "div" "content";
    css_class_sub "div" "article";
    css_tag "article";
    css_class "div" "text";
    css_class "div" "main-content" ].

Definition chinanews_selectors : list selector :=
  [ css_class "div" "left_zw";
    css_class "div" "content";
    css_class "div" "article-content";
    css_class_sub "div" "content";
    css_class_sub "div" "article";
    css_tag "article";
    css_class "div" "text" ].

Definition extract_southcn : M string := extract_with southcn_selectors.
Definition extract_ycwb : M string := extract_with ycwb_selectors.
Definition extract_chinanews : M string := extract_with chinanews_selectors.

Definition extract_generic : M string :=
  article <- find (ByName "article") ;;
  content <- match article with
             | Some el =>
                 decompose_all el fallback_tags ;;
                 get_text el Str.newline
             | None => ret ""
             end ;;
  if too_short content then
    main <- find_first [ByName "main"; ById "div" "content"; ByClass "div" "content"] ;;
    match main with
    | Some el =>
        decompose_all el fallback_tags ;;
        get_text el Str.newline
    | None => ret content
    end
  else ret content.

(* ===================================================================== *)
(** ** Title and metadata                                                *)
(* ===================================================================== *)

Definition title_selectors : list selector :=
  [ css_tag "h1";
    css_tag "title";
    css_class "h1" "article-title";
    css_class "div" "title";
    css_class_sub "h1" "title" ].

Fixpoint extract_title_from (selectors : list selector) : M string :=
  match selectors with
  | [] => ret ""
  | sel :: rest =>
      title_elem <- select_one sel ;;
      match title_elem with
      | Some el =>
          title <- get_text el "" ;;
          if negb (Str.is_empty title) && (5 <? String.length title)%nat then ret title
          else extract_title_from rest
      | None => extract_title_from rest
      end
  end.

Definition extract_title : M string := extract_title_from title_selectors.

Definition author_selectors : list selector :=
  [ css_class "span" "author";
    css_class "div" "author";
    css_class "p" "author";
    css_any_class_sub "author";
    css_any_class_sub "byline" ].

Definition date_selectors : list selector :=
  [ css_class "span" "date";
    css_class "div" "date";
    css_class "p" "date";
    css_tag "time";
    css_any_class_sub "date";
    css_any_class_sub "time" ].

(** [for selector in ...: elem = soup.select_one(selector); if elem:
    metadata[key] = elem.get_text(strip=True); break] *)
Fixpoint fill (key : string) (selectors : list selector)
    (metadata : gmap string string) : M (gmap string string) :=
  match selectors with
  | [] => ret metadata
  | sel :: rest =>
      elem <- select_one sel ;;
      match elem with
      | Some el =>
          t <- get_text el "" ;;
          ret (<[key := t]> metadata)
      | None => fill key rest metadata
      end
  end.

Definition extract_metadata (url : string) : M (gmap string string) :=
  let metadata : gmap string string :=
    <["source_url" := url]> (<["publish_date" := ""]> (<["author" := ""]> ∅)) in
  metadata <- fill "author" author_selectors metadata ;;
  metadata <- fill "publish_date" date_selectors metadata ;;
  ret metadata.

(* ===================================================================== *)
(** ** The crawler                                                       *)
(* ===================================================================== *)

Inductive SourceId : Type := southcn | ycwb | chinanews | unknown.

(** The [result] dictionary of [crawl_article]; [error] is [None] or a
    message. *)
Record ExtractionResult : Type := mkResult {
  url : string;
  success : bool;
  source : SourceId;
  title : string;
  content : string;
  content_length : nat;
  metadata : gmap string string;
  error : option string;
}.

Definition set_success (r : ExtractionResult) (b : bool) : ExtractionResult :=
  mkResult (url r) b (source r) (title r) (content r) (content_length r) (metadata r) (error r).
Definition set_title (r : ExtractionResult) (t : string) : ExtractionResult :=
  mkResult (url r) (success r) (source r) t (content r) (content_length r) (metadata r) (error r).
Definition set_content (r : ExtractionResult) (c : string) : ExtractionResult :=
  mkResult (url r) (success r) (source r) (title r) c (content_length r) (metadata r) (error r).
Definition set_content_length (r : ExtractionResult) (n : nat) : ExtractionResult :=
  mkResult (url r) (success r) (source r) (title r) (content r) n (metadata r) (error r).
Definition set_metadata (r : ExtractionResult) (m : gmap string string) : ExtractionResult :=
  mkResult (url r) (success r) (source r) (title r) (content r) (content_length r) m (error r).
Definition set_error (r : ExtractionResult) (e : string) : ExtractionResult :=
  mkResult (url r) (success r) (source r) (title r) (content r) (content_length r) (metadata r) (Some e).

(** What [requests.get] followed by [raise_for_status] and the decoding of
    the body comes to: the text of the page, or one of the three classes of
    exception [fetch_url] tells apart (with [str(e)]). *)
Inductive response : Type :=
| Page (text : string)
| RaisesTimeout
| RaisesRequestException (e : string)
| RaisesOther (e : string).

(** [BeautifulSoup(html, 'html.parser')]: the document, or [str(e)] of the
    exception raised. *)
Inductive parsed : Type :=
| Document (doc : soup)
| ParserException (e : string).

Definition extract_content (src : SourceId) : M string :=
  match src with
  | southcn => extract_southcn
  | ycwb => extract_ycwb
  | chinanews => extract_chinanews
  | unknown => extract_generic
  end.

Definition too_short_error (n : nat) : string :=
  "Extracted content too short (" ++ Str.of_nat n ++ " chars)".

(** The part of [crawl_article] that runs on the parsed document. *)
Definition assemble (result : ExtractionResult) : M ExtractionResult :=
  t <- extract_title ;;
  let result := set_title result t in
  c <- extract_content (source result) ;;
  let result := set_content result c in
  m <- extract_metadata (url result) ;;
  let result := set_metadata result m in
  let result := set_content_length result (String.length (content result)) in
  ret (if negb (Str.is_empty (content result)) && (100 <? String.length (content result))%nat
       then set_success result true
       else set_error result (too_short_error (content_length result))).

Section Crawler.

(** The environment of one crawl. *)
Variable check_bracketed_netloc : string -> bool.
Variable requests_get : string -> response.
Variable BeautifulSoup : string -> parsed.

Definition fetch_url (url : string) : bool * string :=
  match requests_get url with
  | Page text => (true, text)
  | RaisesTimeout => (false, "Request timeout")
  | RaisesRequestException e => (false, "Request error: " ++ e)
  | RaisesOther e => (false, "Unexpected error: " ++ e)
  end.

Definition identify_source (url : string) : outcome SourceId :=
  match Url.urlparse_netloc check_bracketed_netloc url with
  | Raises e => Raises e
  | Returns netloc =>
      let domain := Str.lower netloc in
      Returns
        (if Str.contains "southcn.com" domain || Str.contains "southcn" domain then southcn
         else if Str.contains "ycwb.com" domain then ycwb
         else if Str.contains "chinanews.com.cn" domain then chinanews
         else unknown)
  end.

Definition crawl_article (url : string) : outcome ExtractionResult :=
  match identify_source url with
  | Raises e => Raises e
  | Returns src =>
      let result := mkResult url false src "" "" 0 ∅ None in
      let (ok, html_content) := fetch_url url in
      if negb ok then Returns (set_error result html_content)
      else
        match BeautifulSoup html_content with
        | ParserException e => Returns (set_error result ("HTML parsing error: " ++ e))
        | Document doc => Returns (fst (assemble result doc))
        end
  end.

End Crawler.

(* ===================================================================== *)
(** ** The API client: [get_test_urls_from_api]                          *)
(* ===================================================================== *)

(** An article record of an API reply: a JSON object whose fields hold
    strings or null ([None]), as the API documents it. *)
Abbreviation article := (gmap string (option string)).

(** [article.get('url')] *)
Definition get_url (a : article) : option string := default None (a !! "url").

(** [article.get('source', '')] *)
Definition get_source (a : article) : option string := default (Some "") (a !! "source").

(** [data.get('result', {})], by the cases the code tells apart: an
    object, with its [list] entry if it has one; an array; anything else. *)
Inductive api_result : Type :=
| ResultObject (list_entry : option (list article))
| ResultArray (articles : list article)
| ResultOther.

(** [requests.get(api_url, ...)] followed by [response.json()]: an
    exception, or the [code], [msg] and [result] entries of the object
    received (absent entries are [None] and [ResultObject None]). *)
Inductive api_reply : Type :=
| ApiRaises
| ApiData (code : option Z) (msg : option string) (result : api_result).

(** [data.get('code') == 200] *)
Definition is_200 (code : option Z) : bool := bool_decide (code = Some 200%Z).

Definition articles_of (result : api_result) : list article :=
  match result with
  | ResultObject (Some articles) => articles
  | ResultObject None => []
  | ResultArray articles => articles
  | ResultOther => []
  end.

(** The loop over the articles of one reply: [urls] and [sources_seen] are
    the list and the set built so far, and the loop breaks when [urls]
    reaches [limit] entries. *)
Fixpoint collect (limit : nat) (articles : list article)
    (urls : list (string * option string)) (sources_seen : gset (option string))
    : list (string * option string) * gset (option string) :=
  match articles with
  | [] => (urls, sources_seen)
  | a :: rest =>
      match get_url a with
      | Some u =>
          if negb (Str.is_empty u) && negb (bool_decide (get_source a ∈ sources_seen)) then
            let urls := (urls ++ [(u, get_source a)])%list in
            let sources_seen := {[get_source a]} ∪ sources_seen in
            if (limit <=? length urls)%nat then (urls, sources_seen)
            else collect limit rest urls sources_seen
          else collect limit rest urls sources_seen
      | None => collect limit rest urls sources_seen
      end
  end.

(** Reading [apikey.md]: its text, [FileNotFoundError], or another error
    of [open] or [read] (with [str(e)]), which the function does not catch. *)
Inductive key_file : Type :=
| KeyText (api_key : string)
| KeyNotFound
| KeyUnreadable (e : string).

(** How a script-level function ends: with a value, or with an exception
    it lets through. *)
Inductive failure : Type :=
| UrlError (e : exn)
| IOError (msg : string).

Inductive run (A : Type) : Type :=
| Done (a : A)
| Failed (e : failure).
Arguments Done {A} a.
Arguments Failed {A} e.

(** [reply] and [reply2] are what the first and the second request come
    to; the second is made only when the first reply has code 200. *)
Definition get_test_urls_from_api (key : key_file) (reply reply2 : api_reply)
    : run (list string) :=
  match key with
  | KeyNotFound => Done []
  | KeyUnreadable e => Failed (IOError e)
  | KeyText _ =>
      match reply with
      | ApiRaises => Done []
      | ApiData code _ result =>
          if is_200 code then
            let '(urls, sources_seen) := collect 5 (articles_of result) [] ∅ in
            match reply2 with
            | ApiRaises => Done []
            | ApiData code2 _ result2 =>
                if is_200 code2 then
                  let '(urls, _) := collect 8 (articles_of result2) urls sources_seen in
                  Done (map fst urls)
                else Done (map fst urls)
            end
          else Done []
      end
  end.

(* ===================================================================== *)
(** ** The batch: [main]                                                 *)
(* ===================================================================== *)

Definition fallback_urls : list string :=
  [ "https://xapp.southcn.com/node_2ea31fe5fd/b150021036.shtml";
    "https://news.ycwb.com/ikinvjktjn/content_53731774.htm";
    "http://www.gd.chinanews.com.cn/2025/2025-03-02/440615.shtml" ].

(** [sum(1 for r in results if r['success'])] *)
Definition successful (results : list ExtractionResult) : nat :=
  list_sum (map (fun _ => 1) (List.filter success results)).

(** [sum(r['content_length'] for r in results if r['success'])] *)
Definition total_length (results : list ExtractionResult) : nat :=
  list_sum (map content_length (List.filter success results)).

Section Main.

Variable check_bracketed_netloc : string -> bool.
(** The response to the fetch of the [i]-th URL of the batch. *)
Variable requests_get : nat -> string -> response.
Variable BeautifulSoup : string -> parsed.
Variable key : key_file.
Variables reply reply2 : api_reply.
(** Writing [crawler_results.json]: [None], or [str(e)] of the error. *)
Variable dump_results : list ExtractionResult -> option string.

(** The loop of [main] over the URLs from position [i] on; the [print] and
    [time.sleep] calls are left out. *)
Fixpoint crawl_from (i : nat) (test_urls : list string)
    : outcome (list ExtractionResult) :=
  match test_urls with
  | [] => Returns []
  | u :: rest =>
      match crawl_article check_bracketed_netloc (requests_get i) BeautifulSoup u with
      | Raises e => Raises e
      | Returns result =>
          match crawl_from (S i) rest with
          | Raises e => Raises e
          | Returns results => Returns (result :: results)
          end
      end
  end.

Definition main : run (list ExtractionResult) :=
  match get_test_urls_from_api key reply reply2 with
  | Failed e => Failed e
  | Done test_urls =>
      let test_urls :=
        match test_urls with
        | [] => fallback_urls
        | _ => test_urls
        end in
      match crawl_from 0 test_urls with
      | Raises e => Failed (UrlError e)
      | Returns results =>
          match dump_results results with
          | Some e => Failed (IOError e)
          | None => Done results
          end
      end
  end.

End Main.

(* ===================================================================== *)
(** ** test_api.py: [test_api] and [check_fulltext_availability]         *)
(* ===================================================================== *)

(** [collections.Counter] over the sources, as the dictionary it is: keys
    in the order of their first occurrence. *)
Fixpoint count_up (k : option string) (c : list (option string * nat))
    : list (option string * nat) :=
  match c with
  | [] => [(k, 1)]
  | (k', n) :: r =>
      if decide (k = k') then (k', S n) :: r else (k', n) :: count_up k r
  end.

(** [Counter(l)] *)
Definition Counter (l : list (option string)) : list (option string * nat) :=
  fold_left (fun c k => count_up k c) l [].

(** [c[k]], which is 0 for a key the counter does not have *)
Fixpoint count_of (c : list (option string * nat)) (k : option string) : nat :=
  match c with
  | [] => 0
  | (k', n) :: r => if decide (k = k') then n else count_of r k
  end.

(** The truth value of a field: a non-empty string. *)
Definition truthy (v : option string) : bool :=
  match v with
  | Some s => negb (Str.is_empty s)
  | None => false
  end.

(** [article.get(field)] *)
Definition get_field (field : string) (a : article) : option string :=
  default None (a !! field).

(** [article.get('source', 'Unknown')] *)
Definition get_source_or_unknown (a : article) : option string :=
  default (Some "Unknown") (a !! "source").

(** What [requests.get], [raise_for_status] and [response.json()] come to
    in [test_api]: one of the two exceptions it catches, or the entries of
    the object received. *)
Inductive test_reply : Type :=
| RequestFails (e : string)
| NotJSON
| Data (code : option Z) (msg : option string) (result : api_result).

(** The dictionary [test_api] returns on success. *)
Record report : Type := mkReport {
  report_articles : list article;
  report_sources : list (option string);
  source_counts : list (option string * nat);
  total_articles : nat;
  articles_with_description : nat;
  articles_with_url : nat;
}.

(** The three shapes of the dictionary [test_api] returns. *)
Inductive test_result : Type :=
| Succeeded (r : report)
| Refused (error : option string) (code : option Z)
| NoData (error : string).

(** [sum(1 for a in articles if a.get(field))] *)
Definition count_with (field : string) (articles : list article) : nat :=
  list_sum (map (fun _ => 1) (List.filter (fun a => truthy (get_field field a)) articles)).

(** The [print] calls and the [requests.head] probes of the first three
    articles, whose exceptions a bare [except] swallows, are left out: they
    do not reach the value returned. *)
Definition test_api (reply : test_reply) : test_result :=
  match reply with
  | RequestFails e => NoData e
  | NotJSON => NoData "Invalid JSON response"
  | Data code msg result =>
      if is_200 code then
        let articles := articles_of result in
        let sources := map get_source_or_unknown articles in
        let counts := Counter sources in
        Succeeded
          (mkReport articles (map fst counts) counts (length articles)
             (count_with "description" articles) (count_with "url" articles))
      else Refused msg code
  end.

(** What [requests.head] comes to for one URL: the status code and the
    [Content-Type] header if present, or [str(e)] of an exception. *)
Inductive head_reply : Type :=
| Head (status_code : Z) (content_type : option string)
| HeadRaises (e : string).

(** An entry of [fulltext_info]; [info_status_code] and [info_error] are
    [None] when the dictionary has no such key. *)
Record info : Type := mkInfo {
  info_title : string;
  info_source : option string;
  info_url : string;
  has_description : bool;
  description_length : nat;
  url_accessible : bool;
  info_status_code : option Z;
  info_content_type : option string;
  info_error : option string;
}.

(** How [check_fulltext_availability] ends: with the failed result of
    [test_api], with its own dictionary, or with the [TypeError] of
    [len(None)] or [None[:50]]. *)
Inductive fulltext_result : Type :=
| ApiFailed (result : test_result)
| Checked (entries : list info) (sources : list (option string))
          (counts : list (option string * nat))
| RaisesTypeError.

Section Fulltext.

(** The reply to the probe of the [i]-th article of the sample. *)
Variable requests_head : nat -> string -> head_reply.

(** The entry for one article with a truthy URL, or [None] where the code
    raises [TypeError]: at [len(article.get('description', ''))] when the
    description is null, or at [info['title'][:50]] when there is no title. *)
Definition fulltext_entry (i : nat) (a : article) (u : string) : option info :=
  match a !! "description" with
  | Some None => None
  | description =>
      let text := default "" (default None description) in
      let entry :=
        match requests_head i u with
        | Head status content_type =>
            (bool_decide (status = 200%Z), Some status,
             Some (default "Unknown" content_type), None)
        | HeadRaises e => (false, None, None, Some e)
        end in
      match get_field "title" a with
      | None => None
      | Some title =>
          Some (mkInfo title (get_field "source" a) u
                  (truthy (get_field "description" a)) (String.length text)
                  (fst (fst (fst entry))) (snd (fst (fst entry))) (snd (fst entry))
                  (snd entry))
      end
  end.

(** The loop over [articles[:3]], from position [i] on. *)
Fixpoint fulltext_loop (i : nat) (articles : list article) : option (list info) :=
  match articles with
  | [] => Some []
  | a :: rest =>
      if truthy (get_field "url" a) then
        match fulltext_entry i a (default "" (get_field "url" a)) with
        | None => None
        | Some entry =>
            match fulltext_loop (S i) rest with
            | None => None
            | Some entries => Some (entry :: entries)
            end
        end
      else fulltext_loop (S i) rest
  end.

Definition check_fulltext_availability (reply : test_reply) : fulltext_result :=
  match test_api reply with
  | Succeeded r =>
      match fulltext_loop 0 (take 3 (report_articles r)) with
      | Some entries => Checked entries (report_sources r) (source_counts r)
      | None => RaisesTypeError
      end
  | failed => ApiFailed failed
  end.

End Fulltext.

(* ===================================================================== *)
(** ** test_api.py: [comprehensive_source_search]                        *)
(* ===================================================================== *)

(** The keywords searched for: 展览, then 旅游, 经济, 科技, 教育. *)
Inductive keyword : Type := Exhibition | Tourism | Economy | Technology | Education.

(** [all_sources], [all_source_counts] and [total_articles_scanned]. *)
Record tally : Type := mkTally {
  all_sources : gset (option string);
  all_source_counts : list (option string * nat);
  total_articles_scanned : nat;
}.

(** The dictionary [comprehensive_source_search] returns. *)
Record summary : Type := mkSummary {
  summary_sources : list (option string);
  summary_counts : list (option string * nat);
  summary_total : nat;
}.

(** [all_sources.update(sources)], [all_source_counts.update(sources)] and
    [total_articles_scanned += result['total_articles']] *)
Definition record_report (t : tally) (r : report) : tally :=
  mkTally (all_sources t ∪ list_to_set (report_sources r))
          (fold_left (fun c k => count_up k c) (report_sources r) (all_source_counts t))
          (total_articles_scanned t + total_articles r).

Fixpoint insert_sorted (s : string) (l : list string) : list string :=
  match l with
  | [] => [s]
  | x :: r => if String.leb s x then s :: l else x :: insert_sorted s r
  end.

(** [sorted(s)] for a set of sources: strings come out in their order;
    comparing [None] with anything raises [TypeError] ([None] here), which
    happens as soon as [None] is not the only element. *)
Definition py_sorted (s : gset (option string)) : option (list (option string)) :=
  if bool_decide (None ∈ s) then
    if bool_decide (size s = 1) then Some [None] else None
  else Some (map Some (fold_right insert_sorted [] (omap id (elements s)))).

Section Comprehensive.

(** The reply to the call of [test_api] with a keyword, or none, and a page. *)
Variable api : option keyword -> nat -> test_reply.

(** One loop over pages: [found] is the set of the loop ([keyword_sources],
    [kw_sources]), and the loop breaks at the first call that fails. *)
Fixpoint scan_pages (kw : option keyword) (pages : list nat)
    (t : tally) (found : gset (option string)) : tally * gset (option string) :=
  match pages with
  | [] => (t, found)
  | page :: rest =>
      match test_api (api kw page) with
      | Succeeded r =>
          scan_pages kw rest (record_report t r) (found ∪ list_to_set (report_sources r))
      | _ => (t, found)
      end
  end.

(** The loop over the additional keywords; [None] is the [TypeError] of
    [', '.join(sorted(kw_sources))] when a source of the keyword is null. *)
Fixpoint scan_keywords (kws : list keyword) (t : tally) : option tally :=
  match kws with
  | [] => Some t
  | kw :: rest =>
      let '(t, kw_sources) := scan_pages (Some kw) (seq 1 2) t ∅ in
      if bool_decide (None ∈ kw_sources) then None else scan_keywords rest t
  end.

(** [None] stands for the [TypeError] the function lets through. *)
Definition comprehensive_source_search : option summary :=
  let '(t, _) := scan_pages None (seq 1 5) (mkTally ∅ [] 0) ∅ in
  let '(t, keyword_sources) := scan_pages (Some Exhibition) (seq 1 5) t ∅ in
  match py_sorted keyword_sources with
  | None => None
  | Some _ =>
      match scan_keywords [Tourism; Economy; Technology; Education] t with
      | None => None
      | Some t =>
          match py_sorted (all_sources t) with
          | None => None
          | Some sorted => Some (mkSummary sorted (all_source_counts t) (total_articles_scanned t))
          end
      end
  end.

End Comprehensive.

(* ===================================================================== *)
(** ** Notions the properties are stated with                            *)
(* ===================================================================== *)

(** [sub] occurs in [s]. *)
Definition substring (sub s : string) : Prop :=
  exists pre post, s = pre ++ sub ++ post.

(** Stripping an element of the tags in [names] and reading its text: the
    two steps every tier of the extractors applies to the element it found. *)
Definition strip_text (names : list string) (el : element) : M string :=
  decompose_all el names ;;
  get_text el Str.newline.

(** One candidate selector of the specific tier: the text it yields, if it
    matches an element. *)
Definition candidate (sel : selector) : M (option string) :=
  article_content <- select_one sel ;;
  match article_content with
  | Some el => t <- strip_text specific_tags el ;; ret (Some t)
  | None => ret None
  end.

(** The texts the candidates yield, in order, while [scan] runs over
    [selectors] from the document [doc]: each candidate sees the document
    as the earlier ones left it, and none is tried after a [break]. *)
Fixpoint yields (selectors : list selector) (doc : soup) : list string :=
  match selectors with
  | [] => []
  | sel :: rest =>
      match candidate sel doc with
      | (Some t, doc') =>
          t :: (if (200 <? String.length t)%nat then [] else yields rest doc')
      | (None, doc') => yields rest doc'
      end
  end.

(** Every candidate of [selectors] tried in turn on the document, none
    left out: the texts they yield, in order. *)
Fixpoint try_all (selectors : list selector) : M (list string) :=
  match selectors with
  | [] => ret []
  | sel :: rest =>
      t <- candidate sel ;;
      ts <- try_all rest ;;
      ret (match t with Some t => t :: ts | None => ts end)
  end.

(** No tag of the subtree is named in [names]. *)
Fixpoint free_of (names : list string) (n : node) : bool :=
  match n with
  | Tag name _ contents =>
      negb (bool_decide (name ∈ names)) && forallb (free_of names) contents
  | _ => true
  end.

(** [pruned names l l']: the forest [l'] is [l] with some subtrees deleted,
    each rooted at a tag named in [names]; nothing else differs. *)
Inductive pruned (names : list string) : list node -> list node -> Prop :=
| pruned_nil : pruned names [] []
| pruned_drop name a contents l l' :
    name ∈ names -> pruned names l l' ->
    pruned names (Tag name a contents :: l) l'
| pruned_string s l l' :
    pruned names l l' ->
    pruned names (NavigableString s :: l) (NavigableString s :: l')
| pruned_comment s l l' :
    pruned names l l' ->
    pruned names (Comment s :: l) (Comment s :: l')
| pruned_tag name a contents contents' l l' :
    pruned names contents contents' -> pruned names l l' ->
    pruned names (Tag name a contents :: l) (Tag name a contents' :: l').

(** A computation that only reads the document. *)
Definition readonly {A} (m : M A) : Prop := forall doc, snd (m doc) = doc.

(** A computation that only deletes subtrees rooted at tags in [names]. *)
Definition prunes {A} (names : list string) (m : M A) : Prop :=
  forall doc, pruned names doc (snd (m doc)).




(** The articles of a reply, none when the request raised. *)
Definition reply_articles (r : api_reply) : list article :=
  match r with
  | ApiData _ _ result => articles_of result
  | ApiRaises => []
  end.

(** What holds of the list and the set [collect] builds from the articles
    of [pool]: no source occurs twice, the set holds exactly the sources of
    the list, and every pair is the truthy [url] and the [source] of an
    article of [pool]. *)
Definition collected (pool : list article)
    (urls : list (string * option string)) (sources_seen : gset (option string)) : Prop :=
  NoDup (map snd urls) /\
  (forall s, s ∈ sources_seen <-> s ∈ map snd urls) /\
  Forall (fun p => fst p <> "" /\
                   exists a, a ∈ pool /\ get_url a = Some (fst p) /\ get_source a = snd p)
         urls.

(** How often [k] occurs in [l]. *)
Definition occurrences (k : option string) (l : list (option string)) : nat :=
  length (List.filter (fun x => bool_decide (x = k)) l).

(** An article on which [check_fulltext_availability] raises: it has a
    truthy URL, and a null description or no title. *)
Definition breaks_fulltext (a : article) : Prop :=
  truthy (get_field "url" a) = true /\
  (a !! "description" = Some None \/ get_field "title" a = None).

(** The articles of the sample that have a truthy URL, each with its
    position in the sample. *)
Definition with_url (articles : list article) : list (nat * article) :=
  List.filter (fun p => truthy (get_field "url" (snd p))) (imap pair articles).

(** An entry of [fulltext_info] agrees with the article it was made for and
    with the answer [probe] to the [HEAD] request for its URL:
    [url_accessible] is set exactly when the answer has status 200, the
    status and the content type (["Unknown"] without the header) are those of
    the answer, and without an answer the entry has the text of the exception
    under [error] and neither status nor content type. *)
Definition entry_of (probe : head_reply) (e : info) (a : article) : Prop :=
  get_field "url" a = Some (info_url e) /\
  info_url e <> "" /\
  get_field "title" a = Some (info_title e) /\
  info_source e = get_field "source" a /\
  has_description e = truthy (get_field "description" a) /\
  description_length e = String.length (default "" (get_field "description" a)) /\
  match probe with
  | Head status content_type =>
      (url_accessible e = true <-> status = 200%Z) /\
      info_status_code e = Some status /\
      info_content_type e = Some (default "Unknown" content_type) /\
      info_error e = None
  | HeadRaises err =>
      url_accessible e = false /\
      info_status_code e = None /\
      info_content_type e = None /\
      info_error e = Some err
  end.

(** What holds of the tally after at most [n] successful calls: no source
    is counted under two keys, no count exceeds [n], and the sources of the
    set are those with a positive count. *)
Definition tallied (n : nat) (t : tally) : Prop :=
  NoDup (map fst (all_source_counts t)) /\
  (forall k, count_of (all_source_counts t) k <= n) /\
  (forall k, k ∈ all_sources t <-> 1 <= count_of (all_source_counts t) k).

(** A host name written with letters, digits, dots and hyphens only. *)
Definition host_char (c : ascii) : bool :=
  Url.is_alpha c || Url.is_digit c || Str.has_char c ".-".

(** The candidate selectors and the fallback regions of each source. *)
Definition selectors_of (src : SourceId) : list selector :=
  match src with
  | southcn => southcn_selectors
  | ycwb => ycwb_selectors
  | chinanews => chinanews_selectors
  | unknown => []
  end.

Definition regions_of (src : SourceId) : list strainer :=
  match src with
  | unknown =>
      [ByName "article"; ByName "main"; ById "div" "content"; ByClass "div" "content"]
  | _ => [ByName "main"; ByName "article"; ById "div" "content"]
  end.

(** Nothing in the document for the extractor of [src] to find: no
    candidate selector matches and no fallback region is present. *)
Definition nothing_to_extract (src : SourceId) (doc : soup) : Prop :=
  Forall (fun sel => Dom.search (css_match sel) doc = None) (selectors_of src) /\
  Forall (fun t => Dom.search (find_match t) doc = None) (regions_of src).

(** The region search as the specification words it: a [main] container
    first, then an [article] container, then a content-identified one (a
    [div] with id or class [content]); the first one present is stripped and
    read, and the text is empty when there is none. *)
Definition region_by_spec : M string :=
  region <- find_first
    [ByName "main"; ByName "article"; ById "div" "content"; ByClass "div" "content"] ;;
  match region with
  | Some el => strip_text fallback_tags el
  | None => ret ""
  end.

(** No tag of the subtree passes [test]. *)
Fixpoint unmatched (test : string -> attrs -> bool) (n : node) : bool :=
  match n with
  | Tag name a contents => negb (test name a) && forallb (unmatched test) contents
  | _ => true
  end.

(** Every tag of the subtree that passes [test] is outside the elements
    named in [names]: it is not one of them and does not lie inside one. *)
Fixpoint outside (names : list string) (test : string -> attrs -> bool) (n : node) : bool :=
  match n with
  | Tag name a contents =>
      if bool_decide (name ∈ names)
      then negb (test name a) && forallb (unmatched test) contents
      else forallb (outside names test) contents
  | _ => true
  end.

(** The tests the extractor of [src] searches the document with: its
    candidate selectors and its fallback regions. *)
Definition tests_of (src : SourceId) : list (string -> attrs -> bool) :=
  (map css_match (selectors_of src) ++ map find_match (regions_of src))%list.

(** No element the extractor of [src] can select is a [script], [style],
    [nav], [footer], [header] or [aside] element or lies inside one. *)
Definition targets_outside (src : SourceId) (doc : soup) : Prop :=
  Forall (fun test => forallb (outside fallback_tags test) doc = true) (tests_of src).

(** The element a search returns, as the node it points to. *)
Definition found (test : string -> attrs -> bool) (doc : soup) : option node :=
  Dom.search test doc ≫= fun el => Dom.get_at el doc.

(** The region search and what follows it in [fallback] and in
    [extract_generic]: the first region present is stripped and read, and
    [c] is kept when there is none. *)
Definition region (ts : list strainer) (c : string) : M string :=
  main_content <- find_first ts ;;
  match main_content with
  | Some el =>
      decompose_all el fallback_tags ;;
      get_text el Str.newline
  | None => ret c
  end.

(* ===================================================================== *)
(** * Properties                                                         *)
(* ===================================================================== *)

(** ** Substrings *)

Lemma app_cons (c : ascii) (s t : string) : String c s ++ t = String c (s ++ t).
Proof. reflexivity. Qed.

Lemma app_empty (t : string) : "" ++ t = t.
Proof. reflexivity. Qed.

Lemma prefix_app (sub s : string) :
  String.prefix sub s = true <-> exists post, s = sub ++ post.
Proof.
  revert s. induction sub as [|c sub IH]; intros s.
  - split; [intros _; exists s; reflexivity | intros _; destruct s; reflexivity].
  - destruct s as [|d s]; cbn [String.prefix].
    + split; [discriminate | intros [post H]; discriminate].
    + destruct (ascii_dec c d) as [->|Hne].
      * rewrite IH. split; intros [post H]; exists post;
          rewrite app_cons in *; congruence.
      * split; [discriminate | intros [post H]; rewrite app_cons in H; congruence].
Qed.

Lemma contains_substring (sub s : string) :
  Str.contains sub s = true <-> substring sub s.
Proof.
  induction s as [|d s IH].
  - cbn [Str.contains]. rewrite orb_false_r, prefix_app. split.
    + intros [post H]. exists "", post. exact H.
    + intros [pre [post H]]. destruct pre; [exists post; exact H | discriminate].
  - cbn [Str.contains]. rewrite orb_true_iff, IH, prefix_app. split.
    + intros [[post H] | [pre [post H]]].
      * exists "", post. exact H.
      * exists (String d pre), post. rewrite app_cons. congruence.
    + intros [[|c pre] [post H]].
      * left. exists post. exact H.
      * right. exists pre, post. rewrite app_cons in H. congruence.
Qed.

Lemma app_assoc' (a b c : string) : (a ++ b) ++ c = a ++ b ++ c.
Proof.
  induction a as [|x a IH]; [reflexivity|].
  rewrite !app_cons, IH. reflexivity.
Qed.

Lemma substring_trans (a b s : string) :
  substring a b -> substring b s -> substring a s.
Proof.
  intros [p1 [q1 ->]] [p2 [q2 ->]].
  exists (p2 ++ p1), (q1 ++ q2).
  rewrite !app_assoc'. reflexivity.
Qed.

Lemma contains_false (sub s : string) :
  Str.contains sub s = false <-> ~ substring sub s.
Proof.
  rewrite <- contains_substring. destruct (Str.contains sub s); intuition congruence.
Qed.

(** ** The source classifier *)

(** C4, as the code has it.  Where [urlparse] returns a network location,
    [identify_source] returns the first of southcn, ycwb, chinanews whose
    marker (["southcn"], ["ycwb.com"], ["chinanews.com.cn"]) occurs in the
    lower-cased network location, and unknown when none does; where
    [urlparse] raises, so does [identify_source]. *)
Theorem identify_source_by_netloc (check : string -> bool) (u : string) :
  match Url.urlparse_netloc check u with
  | Raises e => identify_source check u = Raises e
  | Returns netloc =>
      let domain := Str.lower netloc in
      exists src,
        identify_source check u = Returns src /\
        (src = southcn <-> substring "southcn" domain) /\
        (src = ycwb <->
           ~ substring "southcn" domain /\ substring "ycwb.com" domain) /\
        (src = chinanews <->
           ~ substring "southcn" domain /\ ~ substring "ycwb.com" domain /\
           substring "chinanews.com.cn" domain) /\
        (src = unknown <->
           ~ substring "southcn" domain /\ ~ substring "ycwb.com" domain /\
           ~ substring "chinanews.com.cn" domain)
  end.
Proof.
  unfold identify_source.
  destruct (Url.urlparse_netloc check u) as [netloc|e]; [|reflexivity].
  cbv zeta. set (domain := Str.lower netloc).
  assert (Hcom : Str.contains "southcn.com" domain = true ->
                 Str.contains "southcn" domain = true).
  { rewrite !contains_substring. apply substring_trans.
    exists "", ".com". reflexivity. }
  destruct (Str.contains "southcn" domain) eqn:Hs.
  - rewrite orb_true_r. apply contains_substring in Hs.
    eexists; split; [reflexivity|]. intuition congruence.
  - destruct (Str.contains "southcn.com" domain) eqn:Hsc;
      [specialize (Hcom eq_refl); discriminate|].
    simpl. apply contains_false in Hs.
    destruct (Str.contains "ycwb.com" domain) eqn:Hy.
    + apply contains_substring in Hy.
      eexists; split; [reflexivity|]. intuition congruence.
    + apply contains_false in Hy.
      destruct (Str.contains "chinanews.com.cn" domain) eqn:Hc.
      * apply contains_substring in Hc.
        eexists; split; [reflexivity|]. intuition congruence.
      * apply contains_false in Hc.
        eexists; split; [reflexivity|]. intuition congruence.
Qed.

(** C4 as stated fails: on a URL whose network location opens a bracket it
    never closes, [urlparse] raises [ValueError] and [identify_source] lets
    it through, whatever the bracket check of the CPython release. *)
Lemma identify_source_raises :
  identify_source (fun _ => true) "http://[" = Raises (ValueError "Invalid IPv6 URL") /\
  identify_source (fun _ => false) "http://[" = Raises (ValueError "Invalid IPv6 URL").
Proof. split; reflexivity. Qed.

(** ** Running the extractors *)

Lemma bind_run {A B} (m : M A) (k : A -> M B) (doc : soup) :
  bind m k doc = k (fst (m doc)) (snd (m doc)).
Proof. unfold bind. destruct (m doc); reflexivity. Qed.

Lemma select_one_run (sel : selector) (doc : soup) :
  select_one sel doc = (Dom.search (css_match sel) doc, doc).
Proof. reflexivity. Qed.

Lemma find_run (t : strainer) (doc : soup) :
  find t doc = (Dom.search (find_match t) doc, doc).
Proof. reflexivity. Qed.

Lemma scan_step (sel : selector) (rest : list selector) (c : string) (doc : soup) :
  scan (sel :: rest) c doc =
  match candidate sel doc with
  | (Some t, doc') =>
      if (200 <? String.length t)%nat then (t, doc') else scan rest t doc'
  | (None, doc') => scan rest c doc'
  end.
Proof.
  cbn [scan]. unfold candidate, strip_text.
  rewrite !bind_run. rewrite !select_one_run. cbn [fst snd].
  destruct (Dom.search (css_match sel) doc) as [el|]; [|reflexivity].
  rewrite !bind_run. cbn [fst snd]. unfold ret.
  destruct (200 <? _)%nat; reflexivity.
Qed.

Lemma candidate_none (sel : selector) (doc doc' : soup) :
  candidate sel doc = (None, doc') -> doc' = doc.
Proof.
  unfold candidate. rewrite bind_run. rewrite !select_one_run. cbn [fst snd].
  destruct (Dom.search (css_match sel) doc).
  - rewrite bind_run. unfold ret. discriminate.
  - unfold ret. congruence.
Qed.

Lemma last_cons {A} (x d : A) (l : list A) : List.last (x :: l) d = List.last l x.
Proof.
  revert x d. induction l as [|y l IH]; intros x d; [reflexivity|].
  change (List.last (x :: y :: l) d) with (List.last (y :: l) d).
  rewrite !IH. reflexivity.
Qed.


Lemma too_short_false (t : string) : 200 <= String.length t -> too_short t = false.
Proof.
  intros H. unfold too_short.
  destruct t as [|c t]; [simpl in H; lia|].
  cbn [Str.is_empty orb]. apply Nat.ltb_ge. exact H.
Qed.



(** ** The specific tier and the fallback *)

(** C2 as stated fails at its boundary, on the southcn extractor: the
    first candidate ([div.article-body]) yields exactly 200 characters, the
    loop goes on, [div.text] yields a short text, no fallback region exists,
    and the short text is what comes back. *)
Example southcn_200_not_kept :
  let doc :=
    [ Tag "div" (Attrs None ["article-body"]) [NavigableString (Str.replicate 200 "x")];
      Tag "div" (Attrs None ["text"]) [NavigableString "short"] ] in
  yields southcn_selectors doc =
    [Str.replicate 200 "x"; Str.replicate 200 "x"; "short"] /\
  String.length (Str.replicate 200 "x") = 200 /\
  fst (extract_southcn doc) = "short".
Proof. vm_compute. repeat split. Qed.

(** While no candidate yields more than 200 characters the loop goes on:
    after the selectors [pre] it is where trying each of them leaves it. *)
Lemma scan_app (pre rest : list selector) (c : string) (doc : soup) :
  Forall (fun x => String.length x <= 200) (fst (try_all pre doc)) ->
  scan (pre ++ rest)%list c doc =
    scan rest (List.last (fst (try_all pre doc)) c) (snd (try_all pre doc)).
Proof.
  revert c doc. induction pre as [|sel pre IH]; intros c doc Hall; [reflexivity|].
  change ((sel :: pre) ++ rest)%list with (sel :: (pre ++ rest)%list).
  rewrite scan_step. cbn [try_all] in *. rewrite !bind_run in *. cbn [fst snd ret] in *.
  destruct (candidate sel doc) as [[t|] doc1]; cbn [fst snd] in *.
  - inversion Hall as [|? ? Ht Hrest]; subst.
    destruct (Nat.ltb_spec 200 (String.length t)) as [Hlt|Hle]; [lia|].
    rewrite last_cons. apply IH. exact Hrest.
  - apply IH. exact Hall.
Qed.

(** C2, as the code has it.  The first candidate to yield more than 200
    characters ends the scan: whatever selectors [post] come after it, the
    loop and the extractor return exactly its text and leave the document as
    that candidate left it, so that no later selector and no fallback region
    has been stripped. *)
Theorem long_candidate_ends_scan
    (pre post : list selector) (sel : selector) (doc doc' : soup) (t : string) :
  Forall (fun x => String.length x <= 200) (fst (try_all pre doc)) ->
  candidate sel (snd (try_all pre doc)) = (Some t, doc') ->
  200 < String.length t ->
  scan (pre ++ sel :: post)%list "" doc = (t, doc') /\
  extract_with (pre ++ sel :: post)%list doc = (t, doc').
Proof.
  intros Hpre Hsel Hlong.
  assert (Hscan : scan (pre ++ sel :: post)%list "" doc = (t, doc')).
  { rewrite (scan_app pre (sel :: post) "" doc Hpre), scan_step, Hsel.
    destruct (Nat.ltb_spec 200 (String.length t)) as [_|Hle]; [reflexivity|lia]. }
  split; [exact Hscan|].
  unfold extract_with. rewrite bind_run, Hscan. cbn [fst snd].
  rewrite too_short_false by lia. reflexivity.
Qed.

Lemma long_candidate_ends_scan_witness :
  let body := Str.replicate 201 "y" in
  let widget := Tag "div" (Attrs None ["text"])
                  [Tag "script" (Attrs None []) [Comment "track()"]; NavigableString "w"] in
  let doc :=
    [ Tag "article" (Attrs None [])
        [Tag "nav" (Attrs None []) [NavigableString "menu"]; NavigableString body];
      widget ] in
  let doc' := [Tag "article" (Attrs None []) [NavigableString body]; widget] in
  ycwb_selectors =
    ([ css_class "div" "article-content"; css_class "div" "content";
       css_class "div" "article-body"; css_class_sub "div" "content";
       css_class_sub "div" "article" ]
     ++ css_tag "article" :: [css_class "div" "text"; css_class "div" "main-content"])%list /\
  extract_ycwb doc = (body, doc').
Proof.
  cbv zeta. split; [reflexivity|].
  refine (proj2 (long_candidate_ends_scan
                   [ css_class "div" "article-content"; css_class "div" "content";
                     css_class "div" "article-body"; css_class_sub "div" "content";
                     css_class_sub "div" "article" ]
                   [css_class "div" "text"; css_class "div" "main-content"]
                   (css_tag "article") _ _ _ _ _ _)).
  - vm_compute. constructor.
  - vm_compute. reflexivity.
  - vm_compute. lia.
Defined.



(** ** Operations that only read the document *)

Lemma readonly_ret {A} (a : A) : readonly (ret a).
Proof. intros doc. reflexivity. Qed.

Lemma readonly_bind {A B} (m : M A) (k : A -> M B) :
  readonly m -> (forall a, readonly (k a)) -> readonly (bind m k).
Proof. intros Hm Hk doc. rewrite bind_run, (Hm doc). apply Hk. Qed.

Lemma readonly_select_one (sel : selector) : readonly (select_one sel).
Proof. intros doc. reflexivity. Qed.

Lemma readonly_find (t : strainer) : readonly (find t).
Proof. intros doc. reflexivity. Qed.

Lemma readonly_get_text (el : element) (sep : string) : readonly (get_text el sep).
Proof. intros doc. reflexivity. Qed.

Lemma readonly_find_first (ts : list strainer) : readonly (find_first ts).
Proof.
  induction ts as [|t ts IH]; [apply readonly_ret|].
  cbn [find_first]. apply readonly_bind; [apply readonly_find|].
  intros [el|]; [apply readonly_ret|exact IH].
Qed.

Lemma readonly_extract_title : readonly extract_title.
Proof.
  unfold extract_title. induction title_selectors as [|sel rest IH]; [apply readonly_ret|].
  cbn [extract_title_from]. apply readonly_bind; [apply readonly_select_one|].
  intros [el|]; [|exact IH].
  apply readonly_bind; [apply readonly_get_text|].
  intros t. destruct (_ && _); [apply readonly_ret|exact IH].
Qed.

Lemma readonly_fill (key : string) (selectors : list selector) (m : gmap string string) :
  readonly (fill key selectors m).
Proof.
  induction selectors as [|sel rest IH]; [apply readonly_ret|].
  cbn [fill]. apply readonly_bind; [apply readonly_select_one|].
  intros [el|]; [|exact IH].
  apply readonly_bind; [apply readonly_get_text|]. intros t. apply readonly_ret.
Qed.

(** ** The result record *)

Lemma assemble_run (r : ExtractionResult) (doc : soup) :
  let t := fst (extract_title doc) in
  let c := fst (extract_content (source r) doc) in
  let m := fst (extract_metadata (url r) (snd (extract_content (source r) doc))) in
  fst (assemble r doc) =
    if negb (Str.is_empty c) && (100 <? String.length c)%nat
    then mkResult (url r) true (source r) t c (String.length c) m (error r)
    else mkResult (url r) (success r) (source r) t c (String.length c) m
           (Some (too_short_error (String.length c))).
Proof.
  cbv zeta. unfold assemble. rewrite !bind_run. cbn [fst snd ret].
  rewrite (readonly_extract_title doc).
  unfold set_content_length, set_metadata, set_content, set_title, set_success, set_error.
  cbn [url success source title content content_length metadata error].
  destruct (_ && _); reflexivity.
Qed.

Lemma is_empty_false (s : string) : Str.is_empty s = false <-> s <> "".
Proof. destruct s; simpl; split; congruence. Qed.

(** C1.  In every result [crawl_article] returns, [content_length] is the
    length of [content]; [success] is true exactly when [content] is not
    empty and longer than 100 characters, which needs a page that was fetched
    and parsed; a successful result carries no error; and an unsuccessful one
    carries the reason, read off the network and the parser: the message of
    the failed fetch (["Request timeout"], ["Request error: "] or
    ["Unexpected error: "] with the text of the exception), or
    ["HTML parsing error: "] with the text of the parser's exception, or
    ["Extracted content too short (N chars)"] with the length of the content
    for N. *)
Theorem success_iff_long_content
    (check : string -> bool) (get : string -> response) (parse : string -> parsed)
    (u : string) (r : ExtractionResult) :
  crawl_article check get parse u = Returns r ->
  content_length r = String.length (content r) /\
  (success r = true <-> content r <> "" /\ 100 < content_length r) /\
  (success r = true ->
     error r = None /\ exists html doc, get u = Page html /\ parse html = Document doc) /\
  (success r = false ->
     error r =
       Some match get u with
            | RaisesTimeout => "Request timeout"
            | RaisesRequestException e => "Request error: " ++ e
            | RaisesOther e => "Unexpected error: " ++ e
            | Page html =>
                match parse html with
                | ParserException e => "HTML parsing error: " ++ e
                | Document _ =>
                    "Extracted content too short (" ++ Str.of_nat (content_length r)
                      ++ " chars)"
                end
            end).
Proof.
  unfold crawl_article, fetch_url. intros Hrun.
  destruct (identify_source check u) as [src|e]; [|discriminate].
  destruct (get u) as [html| |e|e]; cbn [negb] in Hrun;
    try (injection Hrun as <-; cbn;
         repeat split; try discriminate; try (intros [? ?]; congruence)).
  destruct (parse html) as [doc|e] eqn:Hparse.
  - injection Hrun as <-. rewrite assemble_run.
    cbn [url source success error].
    set (c := fst (extract_content src doc)).
    destruct (Str.is_empty c) eqn:Hempty; cbn [negb andb].
    + destruct c; [|discriminate]. cbn.
      repeat split; try discriminate; try (intros [? ?]; congruence).
    + apply is_empty_false in Hempty.
      destruct (Nat.ltb_spec 100 (String.length c)) as [Hlt|Hle]; cbn.
      * repeat split; auto; try discriminate. exists html, doc. auto.
      * repeat split; try discriminate; try (intros [? ?]; lia).
  - injection Hrun as <-. cbn.
    repeat split; try discriminate; try (intros [? ?]; congruence).
Qed.

Lemma success_iff_long_content_witness :
  let long := [Tag "article" (Attrs None []) [NavigableString (Str.replicate 101 "a")]] in
  let short := [Tag "article" (Attrs None []) [NavigableString "hello"]] in
  (exists r,
     crawl_article (fun _ => true) (fun _ => Page "") (fun _ => Document long)
       "https://news.example.org/a.html" = Returns r /\
     success r = true /\
     (success r = true <-> content r <> "" /\ 100 < content_length r)) /\
  (exists r,
     crawl_article (fun _ => true) (fun _ => Page "") (fun _ => Document short)
       "https://news.example.org/a.html" = Returns r /\
     success r = false /\
     error r = Some "Extracted content too short (5 chars)").
Proof.
  cbv zeta. split.
  - eexists. split; [vm_compute; reflexivity|]. split; [reflexivity|].
    refine (proj1 (proj2 (success_iff_long_content (fun _ => true) (fun _ => Page "")
              (fun _ => Document
                 [Tag "article" (Attrs None []) [NavigableString (Str.replicate 101 "a")]])
              "https://news.example.org/a.html" _ _))).
    vm_compute. reflexivity.
  - eexists. split; [vm_compute; reflexivity|]. split; [reflexivity|].
    refine (proj2 (proj2 (proj2 (success_iff_long_content (fun _ => true) (fun _ => Page "")
              (fun _ => Document [Tag "article" (Attrs None []) [NavigableString "hello"]])
              "https://news.example.org/a.html" _ _))) _).
    + vm_compute. reflexivity.
    + reflexivity.
Defined.

(** C5.  When the fetch times out, [crawl_article] returns the initial
    record with the error ["Request timeout"]: [success] is false, and title,
    content and metadata are the empty defaults whatever the parser would do
    with any page, since neither the parser nor an extractor is reached. *)
Theorem timeout_short_circuits
    (check : string -> bool) (get : string -> response) (parse : string -> parsed)
    (u : string) (src : SourceId) :
  identify_source check u = Returns src ->
  get u = RaisesTimeout ->
  crawl_article check get parse u =
    Returns (mkResult u false src "" "" 0 ∅ (Some "Request timeout")) /\
  substring "timeout" "Request timeout".
Proof.
  intros Hsrc Hget. split.
  - unfold crawl_article, fetch_url. rewrite Hsrc, Hget. reflexivity.
  - exists "Request ", "". reflexivity.
Qed.

Lemma timeout_short_circuits_witness :
  crawl_article (fun _ => true) (fun _ => RaisesTimeout)
    (fun _ => Document [Tag "article" (Attrs None []) [NavigableString "never read"]])
    "https://news.ycwb.com/x/content_1.htm" =
  Returns (mkResult "https://news.ycwb.com/x/content_1.htm" false ycwb "" "" 0 ∅
             (Some "Request timeout")).
Proof.
  refine (proj1 (timeout_short_circuits (fun _ => true) (fun _ => RaisesTimeout) _
                   "https://news.ycwb.com/x/content_1.htm" ycwb _ _));
    reflexivity.
Defined.

(** ** Metadata *)

Lemma fill_keys (key : string) (selectors : list selector)
    (m : gmap string string) (doc : soup) :
  key ∈ dom m ->
  dom (fst (fill key selectors m doc)) = dom m /\
  forall k, k <> key -> fst (fill key selectors m doc) !! k = m !! k.
Proof.
  intros Hkey. induction selectors as [|sel rest IH]; [split; reflexivity|].
  cbn [fill]. rewrite bind_run. rewrite !select_one_run. cbn [fst snd].
  destruct (Dom.search (css_match sel) doc) as [el|]; [|exact IH].
  rewrite bind_run. cbn [fst snd ret]. split.
  - rewrite dom_insert_L. apply subseteq_union_1_L, singleton_subseteq_l, Hkey.
  - intros k Hk. apply lookup_insert_ne. congruence.
Qed.

Lemma extract_metadata_keys (u : string) (doc : soup) :
  dom (fst (extract_metadata u doc)) =
    ({["author"; "publish_date"; "source_url"]} : gset string) /\
  fst (extract_metadata u doc) !! "source_url" = Some u.
Proof.
  unfold extract_metadata. rewrite !bind_run. cbn [fst snd ret].
  set (m0 := <["source_url":=u]> (<["publish_date":=""]> (<["author":=""]> ∅))).
  assert (Hdom0 : dom m0 = ({["author"; "publish_date"; "source_url"]} : gset string)).
  { unfold m0. rewrite !dom_insert_L, dom_empty_L. set_solver. }
  destruct (fill_keys "author" author_selectors m0 doc) as [Hd1 Hl1].
  { rewrite Hdom0. set_solver. }
  set (m1 := fst (fill "author" author_selectors m0 doc)) in *.
  destruct (fill_keys "publish_date" date_selectors m1
              (snd (fill "author" author_selectors m0 doc))) as [Hd2 Hl2].
  { rewrite Hd1, Hdom0. set_solver. }
  split.
  - rewrite Hd2, Hd1. exact Hdom0.
  - rewrite Hl2, Hl1 by discriminate. unfold m0. apply lookup_insert_eq.
Qed.

(** C10.  In a result of [crawl_article] the metadata is the empty
    dictionary when the fetch failed or the parser raised; when both went
    through it has exactly the keys [author], [publish_date] and
    [source_url], the last one bound to the URL crawled. *)
Theorem metadata_keys_iff_extracted
    (check : string -> bool) (get : string -> response) (parse : string -> parsed)
    (u : string) (r : ExtractionResult) :
  crawl_article check get parse u = Returns r ->
  match get u with
  | Page html =>
      match parse html with
      | Document _ =>
          dom (metadata r) = ({["author"; "publish_date"; "source_url"]} : gset string) /\
          metadata r !! "source_url" = Some u
      | ParserException _ => metadata r = ∅
      end
  | _ => metadata r = ∅
  end.
Proof.
  unfold crawl_article, fetch_url. intros Hrun.
  destruct (identify_source check u) as [src|e]; [|discriminate].
  destruct (get u) as [html| |e|e]; cbn [negb] in Hrun;
    try (injection Hrun as <-; reflexivity).
  destruct (parse html) as [doc|e]; [|injection Hrun as <-; reflexivity].
  injection Hrun as <-. rewrite assemble_run. cbn [url source].
  destruct (_ && _); cbn [metadata]; apply extract_metadata_keys.
Qed.

Lemma metadata_keys_iff_extracted_witness :
  exists r,
    crawl_article (fun _ => true) (fun _ => Page "<p>x</p>")
      (fun _ => Document [Tag "p" (Attrs None ["byline"]) [NavigableString " Li "]])
      "http://www.gd.chinanews.com.cn/2025/440615.shtml" = Returns r /\
    metadata r !! "source_url" = Some "http://www.gd.chinanews.com.cn/2025/440615.shtml" /\
    metadata r !! "author" = Some "Li".
Proof.
  eexists. split; [vm_compute; reflexivity|]. split.
  - refine (proj2 (metadata_keys_iff_extracted (fun _ => true) (fun _ => Page "<p>x</p>")
              (fun _ => Document [Tag "p" (Attrs None ["byline"]) [NavigableString " Li "]])
              "http://www.gd.chinanews.com.cn/2025/440615.shtml" _ _)).
    vm_compute. reflexivity.
  - vm_compute. reflexivity.
Defined.

(** ** Documents with nothing to extract *)

Lemma scan_nothing (selectors : list selector) (c : string) (doc : soup) :
  Forall (fun sel => Dom.search (css_match sel) doc = None) selectors ->
  scan selectors c doc = (c, doc).
Proof.
  induction 1 as [|sel rest Hsel _ IH]; [reflexivity|].
  cbn [scan]. rewrite bind_run. rewrite !select_one_run. cbn [fst snd].
  rewrite Hsel. exact IH.
Qed.

Lemma find_first_nothing (ts : list strainer) (doc : soup) :
  Forall (fun t => Dom.search (find_match t) doc = None) ts ->
  find_first ts doc = (None, doc).
Proof.
  induction 1 as [|t rest Ht _ IH]; [reflexivity|].
  cbn [find_first]. rewrite bind_run. rewrite !find_run. cbn [fst snd].
  rewrite Ht. exact IH.
Qed.

Lemma extract_with_nothing (selectors : list selector) (doc : soup) :
  Forall (fun sel => Dom.search (css_match sel) doc = None) selectors ->
  Forall (fun t => Dom.search (find_match t) doc = None)
    [ByName "main"; ByName "article"; ById "div" "content"] ->
  extract_with selectors doc = ("", doc).
Proof.
  intros Hsel Hreg. unfold extract_with.
  rewrite bind_run, scan_nothing by exact Hsel. cbn [fst snd].
  change (too_short "") with true. cbv iota.
  unfold fallback. rewrite bind_run, find_first_nothing by exact Hreg.
  reflexivity.
Qed.

Lemma extract_content_nothing (src : SourceId) (doc : soup) :
  nothing_to_extract src doc -> extract_content src doc = ("", doc).
Proof.
  intros [Hsel Hreg].
  destruct src; cbn [extract_content selectors_of regions_of] in *;
    try (apply extract_with_nothing; assumption).
  inversion Hreg as [|? ? Harticle Hrest]; subst.
  unfold extract_generic. rewrite bind_run. rewrite !find_run. cbn [fst snd].
  rewrite Harticle. rewrite bind_run. cbn [fst snd ret].
  change (too_short "") with true. cbv iota.
  rewrite bind_run, find_first_nothing by exact Hrest.
  reflexivity.
Qed.

(** C9, as the code has it.  On a page that was fetched and parsed and in
    which no candidate selector of the URL's source matches and no fallback
    region of that source is present, the extractor returns the empty text
    and [crawl_article] returns [success = false] with the error
    ["Extracted content too short (0 chars)"]. *)
Theorem nothing_to_extract_is_too_short
    (check : string -> bool) (get : string -> response) (parse : string -> parsed)
    (u html : string) (src : SourceId) (doc : soup) :
  identify_source check u = Returns src ->
  get u = Page html ->
  parse html = Document doc ->
  nothing_to_extract src doc ->
  fst (extract_content src doc) = "" /\
  exists r,
    crawl_article check get parse u = Returns r /\
    content r = "" /\ content_length r = 0 /\ success r = false /\
    error r = Some "Extracted content too short (0 chars)".
Proof.
  intros Hsrc Hget Hparse Hnothing.
  pose proof (extract_content_nothing src doc Hnothing) as Hcontent.
  split; [rewrite Hcontent; reflexivity|].
  unfold crawl_article, fetch_url. rewrite Hsrc, Hget. cbn [negb]. rewrite Hparse.
  eexists. split; [reflexivity|].
  rewrite assemble_run. cbn [url source]. rewrite Hcontent. cbn.
  repeat split.
Qed.

Lemma nothing_to_extract_is_too_short_witness :
  let page := [Tag "p" (Attrs None []) [NavigableString "no container here"]] in
  nothing_to_extract unknown page /\
  exists r,
    crawl_article (fun _ => true) (fun _ => Page "<p>no container here</p>")
      (fun _ => Document page) "https://blog.example.org/post" = Returns r /\
    content r = "" /\ content_length r = 0 /\ success r = false /\
    error r = Some "Extracted content too short (0 chars)".
Proof.
  cbv zeta.
  assert (Hnothing : nothing_to_extract unknown
                       [Tag "p" (Attrs None []) [NavigableString "no container here"]]).
  { split; repeat constructor. }
  split; [exact Hnothing|].
  refine (proj2 (nothing_to_extract_is_too_short (fun _ => true)
            (fun _ => Page "<p>no container here</p>") _
            "https://blog.example.org/post" "<p>no container here</p>" unknown _
            _ _ _ Hnothing)); reflexivity.
Defined.

(** C9 as stated fails for a known source: this page has no [article], no
    [main] and no container with id or class [content], yet the chinanews
    extractor finds its [div.left_zw]; the content is not empty and the
    error reports 5 characters. *)
Lemma left_zw_is_extracted :
  let page := [Tag "div" (Attrs None ["left_zw"]) [NavigableString "hello"]] in
  Forall (fun t => Dom.search (find_match t) page = None)
    [ByName "article"; ByName "main"; ById "div" "content"; ByClass "div" "content"] /\
  crawl_article (fun _ => true) (fun _ => Page "") (fun _ => Document page)
    "http://www.gd.chinanews.com.cn/a.shtml" =
  Returns (mkResult "http://www.gd.chinanews.com.cn/a.shtml" false chinanews "" "hello" 5
             (<["source_url" := "http://www.gd.chinanews.com.cn/a.shtml"]>
                (<["publish_date" := ""]> (<["author" := ""]> ∅)))
             (Some "Extracted content too short (5 chars)")).
Proof. cbv zeta. split; [repeat constructor|vm_compute; reflexivity]. Qed.

(** The sample page of the specification: an [article] of 118 characters
    from an unknown source is extracted and the crawl succeeds. *)
Example sample_article_succeeds :
  let text := "Hello world, this is a sufficiently long test paragraph exceeding one hundred characters for validation purposes here." in
  crawl_article (fun _ => true) (fun _ => Page "")
    (fun _ => Document
       [Tag "html" (Attrs None [])
          [Tag "body" (Attrs None []) [Tag "article" (Attrs None []) [NavigableString text]]]])
    "https://blog.example.org/post" =
  Returns (mkResult "https://blog.example.org/post" true unknown "" text 118
             (<["source_url" := "https://blog.example.org/post"]>
                (<["publish_date" := ""]> (<["author" := ""]> ∅)))
             None).
Proof. vm_compute. reflexivity. Qed.

(** ** Induction over documents *)

Section NodeInduction.

Variable P : node -> Prop.
Variable Q : list node -> Prop.
Hypothesis on_string : forall s, P (NavigableString s).
Hypothesis on_comment : forall s, P (Comment s).
Hypothesis on_tag : forall name a contents, Q contents -> P (Tag name a contents).
Hypothesis on_nil : Q [].
Hypothesis on_cons : forall n l, P n -> Q l -> Q (n :: l).

Lemma node_forest_ind (n : node) : P n.
Proof.
  revert n. fix IH 1. intros [s|s|name a contents].
  - apply on_string.
  - apply on_comment.
  - apply on_tag. induction contents as [|x r IHr].
    + exact on_nil.
    + apply on_cons; [apply IH|exact IHr].
Qed.

Lemma forest_ind (l : list node) : Q l.
Proof.
  induction l as [|x r IH]; [exact on_nil|].
  apply on_cons; [apply node_forest_ind|exact IH].
Qed.

End NodeInduction.

(** ** References returned by a search *)

(** The reference [select_one] or [find] returns points at a tag of the
    document that passes the test. *)
Lemma search_valid (test : string -> attrs -> bool) (doc : soup) (el : element) :
  Dom.search test doc = Some el ->
  exists name a contents,
    Dom.get_at el doc = Some (Tag name a contents) /\ test name a = true.
Proof.
  unfold Dom.search. intros Hfound.
  assert (Hgen : forall l i el,
            Dom.search_from (Dom.search_node test) i l = Some el ->
            exists j q,
              el = (i + j) :: q /\
              exists name a contents,
                l !! j ≫= Dom.node_at q = Some (Tag name a contents) /\
                test name a = true).
  {
    apply (forest_ind
             (fun n => forall q, Dom.search_node test n = Some q ->
                exists name a contents,
                  Dom.node_at q n = Some (Tag name a contents) /\ test name a = true)
             (fun l => forall i el,
                Dom.search_from (Dom.search_node test) i l = Some el ->
                exists j q,
                  el = (i + j) :: q /\
                  exists name a contents,
                    l !! j ≫= Dom.node_at q = Some (Tag name a contents) /\
                    test name a = true)).
    - intros s q Hq. discriminate.
    - intros s q Hq. discriminate.
    - intros name a contents IH q Hq. cbn [Dom.search_node] in Hq.
      destruct (test name a) eqn:Htest.
      + injection Hq as <-. exists name, a, contents. split; [reflexivity|exact Htest].
      + destruct (IH 0 q Hq) as (j & q' & -> & Hnode). exact Hnode.
    - intros i e Hq. discriminate.
    - intros n l IHn IHl i e Hq. cbn [Dom.search_from] in Hq.
      destruct (Dom.search_node test n) as [q|] eqn:Hn.
      + injection Hq as <-. exists 0, q. split; [f_equal; lia|].
        apply IHn. reflexivity.
      + destruct (IHl (S i) e Hq) as (j & q & -> & Hnode).
        exists (S j), q. split; [f_equal; lia|exact Hnode]. }
  destruct (Hgen doc 0 el Hfound) as (j & q & -> & Hnode). exact Hnode.
Qed.

(** ** What stripping does to the document *)

Lemma pruned_refl (names : list string) (l : list node) : pruned names l l.
Proof.
  apply (forest_ind (fun n => match n with Tag _ _ c => pruned names c c | _ => True end)
                    (fun l => pruned names l l)); try exact I; auto.
  - constructor.
  - intros [s|s|name a contents] r Hn Hr; constructor; assumption.
Qed.

Lemma pruned_trans (names : list string) (l1 l2 l3 : list node) :
  pruned names l1 l2 -> pruned names l2 l3 -> pruned names l1 l3.
Proof.
  intros H12. revert l3.
  induction H12 as [|name a contents l l' Hname _ IHl
                    |s l l' _ IHl|s l l' _ IHl
                    |name a contents contents' l l' _ IHc _ IHl]; intros l3 H23.
  - exact H23.
  - apply pruned_drop; [exact Hname|apply IHl; exact H23].
  - inversion H23; subst. apply pruned_string. apply IHl. assumption.
  - inversion H23; subst. apply pruned_comment. apply IHl. assumption.
  - inversion H23; subst.
    + apply pruned_drop; [assumption|apply IHl; assumption].
    + apply pruned_tag; [apply IHc|apply IHl]; assumption.
Qed.

Lemma pruned_more_names (names names' : list string) (l l' : list node) :
  (forall x, x ∈ names -> x ∈ names') ->
  pruned names l l' -> pruned names' l l'.
Proof.
  intros Hsub H.
  induction H;
    [ apply pruned_nil | apply pruned_drop | apply pruned_string
    | apply pruned_comment | apply pruned_tag ]; auto.
Qed.

Lemma pruned_cons (names : list string) (n n' : node) (l l' : list node) :
  pruned names [n] [n'] -> pruned names l l' -> pruned names (n :: l) (n' :: l').
Proof.
  intros Hn Hl. inversion Hn as [|? ? ? ? ? ? Hnil|? ? ? Hnil|? ? ? Hnil|? ? ? ? ? ? Hc Hnil]; subst.
  - inversion Hnil.
  - apply pruned_string. exact Hl.
  - apply pruned_comment. exact Hl.
  - apply pruned_tag; assumption.
Qed.

Lemma pruned_alter (names : list string) (g : node -> node) (i : nat) (l : list node) :
  (forall n, pruned names [n] [g n]) -> pruned names l (alter g i l).
Proof.
  intros Hg. revert i. induction l as [|x r IH]; intros i.
  - constructor.
  - destruct i as [|i]; cbn.
    + apply pruned_cons; [apply Hg|apply pruned_refl].
    + apply pruned_cons; [apply pruned_refl|apply IH].
Qed.

Lemma pruned_decompose_contents (names : list string) (l : list node) :
  pruned names l
    (omap (fun c => if Dom.named names c then None else Some (Dom.decompose_in names c)) l).
Proof.
  apply (forest_ind
           (fun n => match n with
                     | Tag _ _ c =>
                         pruned names c
                           (omap (fun c => if Dom.named names c then None
                                           else Some (Dom.decompose_in names c)) c)
                     | _ => True
                     end)
           (fun l =>
              pruned names l
                (omap (fun c => if Dom.named names c then None
                                else Some (Dom.decompose_in names c)) l)));
    try exact I; auto.
  - constructor.
  - intros [s|s|name a contents] r Hn Hr; cbn.
    + apply pruned_string. exact Hr.
    + apply pruned_comment. exact Hr.
    + destruct (bool_decide_reflect (name ∈ names)) as [Hin|Hout].
      * apply pruned_drop; assumption.
      * apply pruned_tag; assumption.
Qed.

Lemma pruned_decompose_in (names : list string) (n : node) :
  pruned names [n] [Dom.decompose_in names n].
Proof.
  destruct n as [s|s|name a contents]; cbn [Dom.decompose_in].
  - apply pruned_refl.
  - apply pruned_refl.
  - apply pruned_tag; [apply pruned_decompose_contents|constructor].
Qed.

Lemma pruned_alter_node (names : list string) (q : list nat) (n : node) :
  pruned names [n] [Dom.alter_node (Dom.decompose_in names) q n].
Proof.
  revert n. induction q as [|i q IH]; intros n; cbn [Dom.alter_node].
  - apply pruned_decompose_in.
  - destruct n as [s|s|name a contents]; try apply pruned_refl.
    apply pruned_tag; [|constructor].
    apply pruned_alter. exact IH.
Qed.

Lemma pruned_alter_at (names : list string) (el : element) (doc : soup) :
  pruned names doc (Dom.alter_at (Dom.decompose_in names) el doc).
Proof.
  destruct el as [|i q]; cbn [Dom.alter_at]; [apply pruned_refl|].
  apply pruned_alter. apply pruned_alter_node.
Qed.

Lemma prunes_readonly {A} (names : list string) (m : M A) : readonly m -> prunes names m.
Proof. intros Hm doc. rewrite (Hm doc). apply pruned_refl. Qed.

Lemma prunes_bind {A B} (names : list string) (m : M A) (k : A -> M B) :
  prunes names m -> (forall a, prunes names (k a)) -> prunes names (bind m k).
Proof.
  intros Hm Hk doc. rewrite bind_run.
  eapply pruned_trans; [apply Hm|apply Hk].
Qed.

Lemma prunes_strip_text (names names' : list string) (el : element) :
  (forall x, x ∈ names -> x ∈ names') -> prunes names' (strip_text names el).
Proof.
  intros Hsub. unfold strip_text. apply prunes_bind.
  - intros doc. cbn. eapply pruned_more_names; [exact Hsub|apply pruned_alter_at].
  - intros _. apply prunes_readonly, readonly_get_text.
Qed.

Lemma specific_in_fallback (x : string) : x ∈ specific_tags -> x ∈ fallback_tags.
Proof. unfold specific_tags, fallback_tags. rewrite !elem_of_cons. tauto. Qed.

Lemma prunes_scan (names : list string) (selectors : list selector) (c : string) :
  (forall x, x ∈ specific_tags -> x ∈ names) -> prunes names (scan selectors c).
Proof.
  intros Hsub. revert c. induction selectors as [|sel rest IH]; intros c.
  - apply prunes_readonly, readonly_ret.
  - cbn [scan]. apply prunes_bind; [apply prunes_readonly, readonly_select_one|].
    intros [el|]; [|apply IH].
    apply (prunes_bind names (decompose_all el specific_tags)).
    + intros doc. cbn. eapply pruned_more_names; [exact Hsub|apply pruned_alter_at].
    + intros _. apply prunes_bind; [apply prunes_readonly, readonly_get_text|].
      intros t. destruct (200 <? _)%nat; [apply prunes_readonly, readonly_ret|apply IH].
Qed.

Lemma prunes_region (ts : list strainer) (c : string) :
  prunes fallback_tags
    (region <- find_first ts ;;
     match region with
     | Some el => decompose_all el fallback_tags ;; get_text el Str.newline
     | None => ret c
     end).
Proof.
  apply prunes_bind; [apply prunes_readonly, readonly_find_first|].
  intros [el|]; [|apply prunes_readonly, readonly_ret].
  apply (prunes_strip_text fallback_tags fallback_tags el). auto.
Qed.


Lemma prunes_extract_generic : prunes fallback_tags extract_generic.
Proof.
  unfold extract_generic. apply prunes_bind; [apply prunes_readonly, readonly_find|].
  intros article. apply prunes_bind.
  - destruct article as [el|]; [|apply prunes_readonly, readonly_ret].
    apply (prunes_strip_text fallback_tags fallback_tags el). auto.
  - intros c. destruct (too_short c); [apply prunes_region|apply prunes_readonly, readonly_ret].
Qed.

(** ** Elements with nothing to strip *)

Section Free.

Variables names names' : list string.
Hypothesis names_sub : forall x, x ∈ names -> x ∈ names'.

Lemma decompose_free_contents (l : list node) :
  forallb (free_of names') l = true ->
  omap (fun c => if Dom.named names c then None else Some (Dom.decompose_in names c)) l = l.
Proof.
  apply (forest_ind
           (fun n => free_of names' n = true ->
                     Dom.named names n = false /\ Dom.decompose_in names n = n)
           (fun l => forallb (free_of names') l = true ->
                     omap (fun c => if Dom.named names c then None
                                    else Some (Dom.decompose_in names c)) l = l)).
  - intros s _. split; reflexivity.
  - intros s _. split; reflexivity.
  - intros name a contents IH Hfree. cbn [free_of] in Hfree.
    apply andb_true_iff in Hfree as [Hname Hcontents].
    apply negb_true_iff, bool_decide_eq_false in Hname. split.
    + cbn [Dom.named]. apply bool_decide_eq_false. intros Hin. apply Hname, names_sub, Hin.
    + cbn [Dom.decompose_in]. rewrite (IH Hcontents). reflexivity.
  - reflexivity.
  - intros n r IHn IHr Hfree. cbn [forallb] in Hfree.
    apply andb_true_iff in Hfree as [Hn Hr].
    destruct (IHn Hn) as [Hnamed Hsame]. cbn. rewrite Hnamed, Hsame.
    f_equal. apply IHr. exact Hr.
Qed.

Lemma decompose_free (n : node) :
  free_of names' n = true -> Dom.decompose_in names n = n.
Proof.
  destruct n as [s|s|name a contents]; try reflexivity.
  cbn [free_of Dom.decompose_in]. intros Hfree.
  apply andb_true_iff in Hfree as [_ Hcontents].
  rewrite (decompose_free_contents _ Hcontents). reflexivity.
Qed.

Lemma alter_free (g : node -> node) (i : nat) (l : list node) :
  (forall n, free_of names' n = true -> g n = n) ->
  forallb (free_of names') l = true -> alter g i l = l.
Proof.
  intros Hg. revert i. induction l as [|x r IH]; intros i Hfree; [reflexivity|].
  cbn [forallb] in Hfree. apply andb_true_iff in Hfree as [Hx Hr].
  destruct i as [|i]; cbn.
  - rewrite (Hg x Hx). reflexivity.
  - f_equal. apply IH. exact Hr.
Qed.

Lemma alter_node_free (q : list nat) (n : node) :
  free_of names' n = true -> Dom.alter_node (Dom.decompose_in names) q n = n.
Proof.
  revert n. induction q as [|i q IH]; intros n Hfree; cbn [Dom.alter_node].
  - apply decompose_free. exact Hfree.
  - destruct n as [s|s|name a contents]; try reflexivity.
    cbn [free_of] in Hfree. apply andb_true_iff in Hfree as [_ Hcontents].
    rewrite (alter_free _ _ _ IH Hcontents). reflexivity.
Qed.

Lemma alter_at_free (el : element) (doc : soup) :
  forallb (free_of names') doc = true ->
  Dom.alter_at (Dom.decompose_in names) el doc = doc.
Proof.
  intros Hfree. destruct el as [|i q]; [reflexivity|].
  cbn [Dom.alter_at]. apply alter_free; [apply alter_node_free|exact Hfree].
Qed.

End Free.

(** ** The order of the region search *)

(** C8, as the code has it.  The fallback of the three per-source
    extractors takes the first present of [main], [article], [div#content]
    and keeps the text it had when there is none.  The generic extractor
    looks for an [article] first and keeps its text unless it is empty or
    shorter than 200 characters; only then does it take the first present of
    [main], [div#content], [div.content], and the article's text when there
    is none. *)
Theorem region_search_order (c : string) (doc : soup) :
  fst (fallback c doc) =
    match Dom.search (find_match (ByName "main")) doc with
    | Some el => fst (strip_text fallback_tags el doc)
    | None =>
        match Dom.search (find_match (ByName "article")) doc with
        | Some el => fst (strip_text fallback_tags el doc)
        | None =>
            match Dom.search (find_match (ById "div" "content")) doc with
            | Some el => fst (strip_text fallback_tags el doc)
            | None => c
            end
        end
    end /\
  let first :=
    match Dom.search (find_match (ByName "article")) doc with
    | Some el => strip_text fallback_tags el doc
    | None => ("", doc)
    end in
  fst (extract_generic doc) =
    if too_short (fst first) then
      match Dom.search (find_match (ByName "main")) (snd first) with
      | Some el => fst (strip_text fallback_tags el (snd first))
      | None =>
          match Dom.search (find_match (ById "div" "content")) (snd first) with
          | Some el => fst (strip_text fallback_tags el (snd first))
          | None =>
              match Dom.search (find_match (ByClass "div" "content")) (snd first) with
              | Some el => fst (strip_text fallback_tags el (snd first))
              | None => fst first
              end
          end
      end
    else fst first.
Proof.
  split.
  - unfold fallback. cbn [find_first]. rewrite !bind_run, !find_run. cbn [fst snd].
    destruct (Dom.search (find_match (ByName "main")) doc); [reflexivity|].
    rewrite !bind_run, !find_run. cbn [fst snd].
    destruct (Dom.search (find_match (ByName "article")) doc); [reflexivity|].
    rewrite !bind_run, !find_run. cbn [fst snd].
    destruct (Dom.search (find_match (ById "div" "content")) doc); reflexivity.
  - cbv zeta. unfold extract_generic. rewrite !bind_run, !find_run. cbn [fst snd].
    set (first := match Dom.search (find_match (ByName "article")) doc with
                  | Some el => strip_text fallback_tags el doc
                  | None => ("", doc)
                  end).
    assert (Hfirst :
      match Dom.search (find_match (ByName "article")) doc with
      | Some el => decompose_all el fallback_tags;; get_text el Str.newline
      | None => ret ""
      end doc = first).
    { unfold first, strip_text. destruct (Dom.search _ doc); reflexivity. }
    rewrite Hfirst.
    destruct (too_short (fst first)); [|reflexivity].
    cbn [find_first]. rewrite !bind_run, !find_run. cbn [fst snd].
    destruct (Dom.search (find_match (ByName "main")) (snd first)); [reflexivity|].
    rewrite !bind_run, !find_run. cbn [fst snd].
    destruct (Dom.search (find_match (ById "div" "content")) (snd first)); [reflexivity|].
    rewrite !bind_run, !find_run. cbn [fst snd].
    destruct (Dom.search (find_match (ByClass "div" "content")) (snd first)); reflexivity.
Qed.

(** C8 as stated fails on the path of unknown sources: with an [article]
    and a [div#content] but no [main], the order of the specification takes
    the article, the generic extractor the [div#content]. *)
Lemma generic_prefers_content_div :
  let page :=
    [ Tag "article" (Attrs None []) [NavigableString "a"];
      Tag "div" (Attrs (Some "content") []) [NavigableString "c"] ] in
  fst (region_by_spec page) = "a" /\
  fst (extract_content unknown page) = "c".
Proof. cbv zeta. split; vm_compute; reflexivity. Qed.

Lemma search_valid_witness :
  let page :=
    [NavigableString "intro";
     Tag "div" (Attrs None ["wrap"]) [Tag "div" (Attrs None ["article-content"]) []]] in
  Dom.search (css_match (css_class "div" "article-content")) page = Some [1; 0] /\
  exists name a contents,
    Dom.get_at [1; 0] page = Some (Tag name a contents) /\
    css_match (css_class "div" "article-content") name a = true.
Proof.
  cbv zeta. split; [reflexivity|].
  refine (search_valid _ _ _ _). reflexivity.
Defined.

(** ** The title *)

Lemma get_text_run (el : element) (sep : string) (doc : soup) :
  get_text el sep doc = (from_option (Dom.text sep) "" (Dom.get_at el doc), doc).
Proof. reflexivity. Qed.

Lemma extract_title_from_either (selectors : list selector) (doc : soup) :
  fst (extract_title_from selectors doc) = "" \/
  (5 < String.length (fst (extract_title_from selectors doc)) /\
   exists sel el name a contents,
     In sel selectors /\
     Dom.search (css_match sel) doc = Some el /\
     Dom.get_at el doc = Some (Tag name a contents) /\
     fst (extract_title_from selectors doc) = Dom.text "" (Tag name a contents)).
Proof.
  induction selectors as [|sel rest IH]; [left; reflexivity|].
  assert (Hrest :
    fst (extract_title_from rest doc) = "" \/
    (5 < String.length (fst (extract_title_from rest doc)) /\
     exists sel' el name a contents,
       In sel' (sel :: rest) /\
       Dom.search (css_match sel') doc = Some el /\
       Dom.get_at el doc = Some (Tag name a contents) /\
       fst (extract_title_from rest doc) = Dom.text "" (Tag name a contents))).
  { destruct IH as [IH|[Hlen (sel' & el & name & a & contents & Hin & Hrest)]];
      [left; exact IH|right].
    split; [exact Hlen|]. exists sel', el, name, a, contents.
    split; [right; exact Hin|exact Hrest]. }
  cbn [extract_title_from]. rewrite bind_run, select_one_run. cbn [fst snd].
  destruct (Dom.search (css_match sel) doc) as [el|] eqn:Hsearch; [|exact Hrest].
  rewrite bind_run, get_text_run. cbn [fst snd].
  destruct (search_valid _ _ _ Hsearch) as (name & a & contents & Hat & _).
  rewrite Hat. cbn [from_option].
  destruct (Str.is_empty (Dom.text "" (Tag name a contents))); cbn [negb andb];
    [exact Hrest|].
  destruct (Nat.ltb_spec 5 (String.length (Dom.text "" (Tag name a contents))))
    as [Hlt|Hle]; [|exact Hrest].
  right. cbn [ret fst]. split; [exact Hlt|].
  exists sel, el, name, a, contents. repeat split; auto. left. reflexivity.
Qed.

(** The title extractor only reads the document, and its result is either
    empty or longer than 5 characters; in the second case it is the text,
    joined without separator, of the first element some title selector
    matches. *)
Theorem extract_title_empty_or_long (doc : soup) :
  snd (extract_title doc) = doc /\
  (fst (extract_title doc) = "" \/
   (5 < String.length (fst (extract_title doc)) /\
    exists sel el name a contents,
      In sel title_selectors /\
      Dom.search (css_match sel) doc = Some el /\
      Dom.get_at el doc = Some (Tag name a contents) /\
      fst (extract_title doc) = Dom.text "" (Tag name a contents))).
Proof.
  split; [apply readonly_extract_title|].
  unfold extract_title. apply extract_title_from_either.
Qed.

(** ** When [crawl_article] raises *)

Lemma crawl_article_returns
    (check : string -> bool) (get : string -> response) (parse : string -> parsed)
    (u netloc : string) :
  Url.urlparse_netloc check u = Returns netloc ->
  exists r,
    crawl_article check get parse u = Returns r /\
    url r = u /\
    identify_source check u = Returns (source r) /\
    (title r = "" \/ 5 < String.length (title r)) /\
    (success r = true -> 100 < content_length r).
Proof.
  intros Hnet. unfold crawl_article, identify_source. rewrite Hnet.
  destruct (fetch_url get u) as [ok html]. destruct ok; cbn [negb].
  - destruct (parse html) as [doc|e].
    + eexists. split; [reflexivity|]. rewrite assemble_run. cbn [url source].
      destruct (Str.is_empty _) eqn:Hempty; cbn [negb andb].
      * cbn [url source title success content_length]. repeat split; try discriminate.
        destruct (extract_title_from_either title_selectors doc) as [H|[H _]];
          unfold extract_title; auto.
      * match goal with
        | |- context [(100 <? ?n)%nat] => destruct (Nat.ltb_spec 100 n) as [Hlt|Hle]
        end;
          cbn [url source title success content_length]; repeat split;
          try discriminate; try (intros _; exact Hlt);
          destruct (extract_title_from_either title_selectors doc) as [H|[H _]];
          unfold extract_title; auto.
    + eexists. split; [reflexivity|]. cbn. repeat split; auto. discriminate.
  - eexists. split; [reflexivity|]. cbn. repeat split; auto. discriminate.
Qed.

(** [crawl_article] raises exactly when [urlparse] raises on the URL, with
    the same exception and whatever the network and the parser do; in every
    other case it returns a record whose [url] is the URL crawled, whose
    [source] is its classification and whose [title] is empty or longer than
    5 characters. *)
Theorem crawl_article_raises_only_on_url
    (check : string -> bool) (get : string -> response) (parse : string -> parsed)
    (u : string) :
  match Url.urlparse_netloc check u with
  | Raises e => crawl_article check get parse u = Raises e
  | Returns _ =>
      exists r,
        crawl_article check get parse u = Returns r /\
        url r = u /\
        identify_source check u = Returns (source r) /\
        (title r = "" \/ 5 < String.length (title r))
  end.
Proof.
  destruct (Url.urlparse_netloc check u) as [netloc|e] eqn:Hnet.
  - destruct (crawl_article_returns check get parse u netloc Hnet)
      as (r & Hrun & Hurl & Hsrc & Htitle & _).
    exists r. auto.
  - unfold crawl_article, identify_source. rewrite Hnet. reflexivity.
Qed.

(** ** Stripping an element *)

Lemma node_at_alter_node (f : node -> node) (q : list nat) (n : node) :
  Dom.node_at q (Dom.alter_node f q n) = f <$> Dom.node_at q n.
Proof.
  revert n. induction q as [|i q IH]; intros n; [reflexivity|].
  destruct n as [s|s|name a contents]; try reflexivity.
  cbn [Dom.node_at Dom.alter_node]. rewrite list_lookup_alter_eq.
  destruct (contents !! i) as [x|]; [apply IH|reflexivity].
Qed.

Lemma get_at_alter_at (f : node -> node) (el : element) (doc : soup) :
  Dom.get_at el (Dom.alter_at f el doc) = f <$> Dom.get_at el doc.
Proof.
  destruct el as [|i q]; [reflexivity|].
  unfold Dom.get_at, Dom.alter_at, soup in *. rewrite list_lookup_alter_eq.
  destruct (doc !! i) as [x|]; [apply node_at_alter_node|reflexivity].
Qed.

Lemma strip_text_run (names : list string) (el : element) (doc : soup) :
  strip_text names el doc =
    (from_option (Dom.text Str.newline) ""
       (Dom.decompose_in names <$> Dom.get_at el doc),
     Dom.alter_at (Dom.decompose_in names) el doc).
Proof.
  unfold strip_text. rewrite bind_run. unfold decompose_all. cbn [fst snd].
  rewrite get_text_run, get_at_alter_at. reflexivity.
Qed.

Lemma free_after_decompose (names : list string) (l : list node) :
  forallb (free_of names)
    (omap (fun c => if Dom.named names c then None else Some (Dom.decompose_in names c)) l)
  = true.
Proof.
  apply (forest_ind
           (fun n => Dom.named names n = false ->
                     free_of names (Dom.decompose_in names n) = true)
           (fun l =>
              forallb (free_of names)
                (omap (fun c => if Dom.named names c then None
                                else Some (Dom.decompose_in names c)) l) = true)).
  - reflexivity.
  - reflexivity.
  - intros name a contents IH Hnamed. cbn [Dom.named] in Hnamed.
    cbn [Dom.decompose_in free_of]. rewrite Hnamed, IH. reflexivity.
  - reflexivity.
  - intros n r IHn IHr. cbn.
    destruct (Dom.named names n) eqn:Hnamed; [exact IHr|].
    cbn [forallb]. rewrite (IHn eq_refl), IHr. reflexivity.
Qed.

Lemma decompose_idempotent (names : list string) (n : node) :
  Dom.decompose_in names (Dom.decompose_in names n) = Dom.decompose_in names n.
Proof.
  destruct n as [s|s|name a contents]; try reflexivity.
  cbn [Dom.decompose_in]. f_equal.
  apply (decompose_free_contents names names); [auto|apply free_after_decompose].
Qed.

Lemma alter_twice (g : node -> node) (i : nat) (l : list node) :
  (forall x, g (g x) = g x) -> alter g i (alter g i l) = alter g i l.
Proof.
  intros Hg. revert i. induction l as [|x r IH]; intros i; [reflexivity|].
  destruct i as [|i]; cbn; [rewrite Hg|rewrite IH]; reflexivity.
Qed.

Lemma alter_node_twice (f : node -> node) (q : list nat) (n : node) :
  (forall x, f (f x) = f x) ->
  Dom.alter_node f q (Dom.alter_node f q n) = Dom.alter_node f q n.
Proof.
  intros Hf. revert n. induction q as [|i q IH]; intros n; [apply Hf|].
  destruct n as [s|s|name a contents]; try reflexivity.
  cbn [Dom.alter_node]. f_equal. apply alter_twice. exact IH.
Qed.

(** Stripping is idempotent: stripping the same element a second time
    removes nothing more, and the text read after it is the same. *)
Theorem strip_text_idempotent (names : list string) (el : element) (doc : soup) :
  strip_text names el (snd (strip_text names el doc)) = strip_text names el doc.
Proof.
  rewrite !strip_text_run. cbn [snd]. rewrite get_at_alter_at.
  f_equal.
  - destruct (Dom.get_at el doc) as [n|]; [|reflexivity].
    cbn. rewrite decompose_idempotent. reflexivity.
  - destruct el as [|i q]; [reflexivity|]. cbn [Dom.alter_at].
    apply alter_twice. intros x. apply alter_node_twice. apply decompose_idempotent.
Qed.

(** ** Where the extracted text comes from *)







(** ** The document after an extraction *)







(** ** Searching a document and its stripped versions *)

Lemma unmatched_search (test : string -> attrs -> bool) (l : list node) :
  forallb (unmatched test) l = true ->
  forall i, Dom.search_from (Dom.search_node test) i l = None.
Proof.
  apply (forest_ind
           (fun n => unmatched test n = true -> Dom.search_node test n = None)
           (fun l => forallb (unmatched test) l = true ->
                     forall i, Dom.search_from (Dom.search_node test) i l = None)).
  - reflexivity.
  - reflexivity.
  - intros name a contents IH Hno. cbn [unmatched] in Hno.
    apply andb_true_iff in Hno as [Htest Hcontents].
    apply negb_true_iff in Htest. cbn [Dom.search_node]. rewrite Htest.
    apply IH. exact Hcontents.
  - reflexivity.
  - intros n r IHn IHr Hno i. cbn [forallb] in Hno.
    apply andb_true_iff in Hno as [Hn Hr].
    cbn [Dom.search_from]. rewrite (IHn Hn). apply IHr. exact Hr.
Qed.

Lemma unmatched_outside (names : list string) (test : string -> attrs -> bool)
    (l : list node) :
  forallb (unmatched test) l = true -> forallb (outside names test) l = true.
Proof.
  apply (forest_ind
           (fun n => unmatched test n = true -> outside names test n = true)
           (fun l => forallb (unmatched test) l = true ->
                     forallb (outside names test) l = true)).
  - reflexivity.
  - reflexivity.
  - intros name a contents IH Hno. cbn [outside]. cbn [unmatched] in Hno.
    destruct (bool_decide (name ∈ names)); [exact Hno|].
    apply andb_true_iff in Hno as [_ Hcontents]. apply IH. exact Hcontents.
  - reflexivity.
  - intros n r IHn IHr Hno. cbn [forallb] in *.
    apply andb_true_iff in Hno as [Hn Hr]. rewrite (IHn Hn), (IHr Hr). reflexivity.
Qed.

Lemma outside_fewer (names names' : list string) (test : string -> attrs -> bool)
    (l : list node) :
  (forall x, x ∈ names -> x ∈ names') ->
  forallb (outside names' test) l = true -> forallb (outside names test) l = true.
Proof.
  intros Hsub.
  apply (forest_ind
           (fun n => outside names' test n = true -> outside names test n = true)
           (fun l => forallb (outside names' test) l = true ->
                     forallb (outside names test) l = true)).
  - reflexivity.
  - reflexivity.
  - intros name a contents IH Hout. cbn [outside] in *.
    destruct (bool_decide_reflect (name ∈ names)) as [Hin|Hnotin].
    + rewrite (bool_decide_eq_true_2 _ (Hsub _ Hin)) in Hout. exact Hout.
    + destruct (bool_decide (name ∈ names')).
      * apply andb_true_iff in Hout as [_ Hcontents].
        apply unmatched_outside. exact Hcontents.
      * apply IH. exact Hout.
  - reflexivity.
  - intros n r IHn IHr Hout. cbn [forallb] in *.
    apply andb_true_iff in Hout as [Hn Hr]. rewrite (IHn Hn), (IHr Hr). reflexivity.
Qed.

Lemma outside_contents (names : list string) (test : string -> attrs -> bool)
    (name : string) (a : attrs) (contents : list node) :
  outside names test (Tag name a contents) = true ->
  forallb (outside names test) contents = true.
Proof.
  cbn [outside]. destruct (bool_decide (name ∈ names)); [|auto].
  intros Hno. apply andb_true_iff in Hno as [_ Hcontents].
  apply unmatched_outside. exact Hcontents.
Qed.

(** A search of the document and the same search of a stripped version of
    it end on the same element, when nothing the test matches has been
    stripped: none in both, or the element and its stripped version. *)
Lemma search_from_pruned (names : list string) (test : string -> attrs -> bool)
    (l l' : list node) :
  pruned names l l' ->
  forallb (outside names test) l = true ->
  forall i i',
    match Dom.search_from (Dom.search_node test) i l,
          Dom.search_from (Dom.search_node test) i' l' with
    | Some e, Some e' =>
        exists j j' q q',
          e = (i + j) :: q /\ e' = (i' + j') :: q' /\
          exists n n',
            l !! j ≫= Dom.node_at q = Some n /\
            l' !! j' ≫= Dom.node_at q' = Some n' /\
            pruned names [n] [n']
    | None, None => True
    | _, _ => False
    end.
Proof.
  intros Hpruned.
  induction Hpruned as [|name a contents l l' Hname _ IHl
                        |s l l' _ IHl|s l l' _ IHl
                        |name a contents contents' l l' Hc IHc _ IHl];
    intros Hout i i'.
  - exact I.
  - cbn [forallb] in Hout. apply andb_true_iff in Hout as [Hn Hl].
    cbn [outside] in Hn. rewrite (bool_decide_eq_true_2 _ Hname) in Hn.
    apply andb_true_iff in Hn as [Htest Hcontents]. apply negb_true_iff in Htest.
    cbn [Dom.search_from Dom.search_node]. rewrite Htest.
    rewrite (unmatched_search test contents Hcontents 0).
    specialize (IHl Hl (S i) i').
    destruct (Dom.search_from _ (S i) l) as [e|], (Dom.search_from _ i' l') as [e'|];
      try exact IHl.
    destruct IHl as (j & j' & q & q' & -> & -> & Hnodes).
    exists (S j), j', q, q'. split; [f_equal; lia|]. split; [reflexivity|exact Hnodes].
  - cbn [forallb outside] in Hout. cbn [Dom.search_from Dom.search_node].
    specialize (IHl Hout (S i) (S i')).
    destruct (Dom.search_from _ (S i) l) as [e|], (Dom.search_from _ (S i') l') as [e'|];
      try exact IHl.
    destruct IHl as (j & j' & q & q' & -> & -> & Hnodes).
    exists (S j), (S j'), q, q'. split; [f_equal; lia|]. split; [f_equal; lia|exact Hnodes].
  - cbn [forallb outside] in Hout. cbn [Dom.search_from Dom.search_node].
    specialize (IHl Hout (S i) (S i')).
    destruct (Dom.search_from _ (S i) l) as [e|], (Dom.search_from _ (S i') l') as [e'|];
      try exact IHl.
    destruct IHl as (j & j' & q & q' & -> & -> & Hnodes).
    exists (S j), (S j'), q, q'. split; [f_equal; lia|]. split; [f_equal; lia|exact Hnodes].
  - cbn [forallb] in Hout. apply andb_true_iff in Hout as [Hn Hl].
    apply outside_contents in Hn.
    cbn [Dom.search_from Dom.search_node].
    destruct (test name a).
    + exists 0, 0, [], []. split; [f_equal; lia|]. split; [f_equal; lia|].
      exists (Tag name a contents), (Tag name a contents').
      split; [reflexivity|]. split; [reflexivity|].
      apply pruned_tag; [exact Hc|constructor].
    + specialize (IHc Hn 0 0).
      destruct (Dom.search_from _ 0 contents) as [e|],
               (Dom.search_from _ 0 contents') as [e'|]; try (exfalso; exact IHc).
      * destruct IHc as (j & j' & q & q' & -> & -> & Hnodes).
        exists 0, 0, ((0 + j) :: q), ((0 + j') :: q').
        split; [f_equal; lia|]. split; [f_equal; lia|exact Hnodes].
      * specialize (IHl Hl (S i) (S i')).
        destruct (Dom.search_from _ (S i) l) as [e|], (Dom.search_from _ (S i') l') as [e'|];
          try exact IHl.
        destruct IHl as (j & j' & q & q' & -> & -> & Hnodes).
        exists (S j), (S j'), q, q'.
        split; [f_equal; lia|]. split; [f_equal; lia|exact Hnodes].
Qed.

Lemma found_pruned (names : list string) (test : string -> attrs -> bool) (doc doc' : soup) :
  pruned names doc doc' ->
  forallb (outside names test) doc = true ->
  match found test doc, found test doc' with
  | Some n, Some n' => pruned names [n] [n']
  | None, None => True
  | _, _ => False
  end.
Proof.
  intros Hpruned Hout. unfold found, Dom.search.
  pose proof (search_from_pruned names test doc doc' Hpruned Hout 0 0) as H.
  destruct (Dom.search_from _ 0 doc) as [e|], (Dom.search_from _ 0 doc') as [e'|].
  - destruct H as (j & j' & q & q' & -> & -> & n & n' & Hn & Hn' & Hnn).
    cbn [mbind option_bind Dom.get_at]. cbn [Nat.add].
    unfold soup in *. rewrite Hn, Hn'. exact Hnn.
  - destruct H.
  - destruct H.
  - exact I.
Qed.

(** ** Stripping a stripped version *)

Lemma pruned_node_inv (names : list string) (n n' : node) :
  pruned names [n] [n'] ->
  n = n' \/
  exists name a contents contents',
    n = Tag name a contents /\ n' = Tag name a contents' /\ pruned names contents contents'.
Proof.
  intros H.
  inversion H as [|? ? ? ? ? ? Hnil|? ? ? Hnil|? ? ? Hnil|? ? ? ? ? ? Hc Hnil]; subst.
  - inversion Hnil.
  - left. reflexivity.
  - left. reflexivity.
  - right. eauto 10.
Qed.

(** Stripping the tags [names'] gives the same from a document and from a
    version of it that has lost some of these tags already. *)
Lemma decompose_pruned_contents (names names' : list string) (l l' : list node) :
  (forall x, x ∈ names -> x ∈ names') ->
  pruned names l l' ->
  omap (fun c => if Dom.named names' c then None else Some (Dom.decompose_in names' c)) l' =
  omap (fun c => if Dom.named names' c then None else Some (Dom.decompose_in names' c)) l.
Proof.
  intros Hsub H.
  induction H as [|name a contents l l' Hname _ IHl
                  |s l l' _ IHl|s l l' _ IHl
                  |name a contents contents' l l' _ IHc _ IHl].
  - reflexivity.
  - cbn. rewrite (bool_decide_eq_true_2 _ (Hsub _ Hname)). exact IHl.
  - cbn. rewrite IHl. reflexivity.
  - cbn. rewrite IHl. reflexivity.
  - cbn. rewrite IHl, IHc. reflexivity.
Qed.

Lemma decompose_pruned (names names' : list string) (n n' : node) :
  (forall x, x ∈ names -> x ∈ names') ->
  pruned names [n] [n'] ->
  Dom.decompose_in names' n' = Dom.decompose_in names' n.
Proof.
  intros Hsub H.
  destruct (pruned_node_inv names n n' H) as [->|(name & a & cs & cs' & -> & -> & Hc)];
    [reflexivity|].
  cbn [Dom.decompose_in]. rewrite (decompose_pruned_contents names names' cs cs' Hsub Hc).
  reflexivity.
Qed.

(** Stripping other tags from both keeps one a stripped version of the
    other. *)
Lemma pruned_decompose_both_contents (names names' : list string) (l l' : list node) :
  pruned names l l' ->
  pruned names
    (omap (fun c => if Dom.named names' c then None else Some (Dom.decompose_in names' c)) l)
    (omap (fun c => if Dom.named names' c then None else Some (Dom.decompose_in names' c)) l').
Proof.
  intros H.
  induction H as [|name a contents l l' Hname _ IHl
                  |s l l' _ IHl|s l l' _ IHl
                  |name a contents contents' l l' _ IHc _ IHl].
  - constructor.
  - cbn. destruct (bool_decide (name ∈ names')); [exact IHl|].
    apply pruned_drop; [exact Hname|exact IHl].
  - cbn. apply pruned_string. exact IHl.
  - cbn. apply pruned_comment. exact IHl.
  - cbn. destruct (bool_decide (name ∈ names')); [exact IHl|].
    apply pruned_tag; [exact IHc|exact IHl].
Qed.

Lemma pruned_decompose_both (names names' : list string) (n n' : node) :
  pruned names [n] [n'] ->
  pruned names [Dom.decompose_in names' n] [Dom.decompose_in names' n'].
Proof.
  intros H.
  destruct (pruned_node_inv names n n' H) as [->|(name & a & cs & cs' & -> & -> & Hc)];
    [apply pruned_refl|].
  cbn [Dom.decompose_in]. apply pruned_tag; [|constructor].
  apply pruned_decompose_both_contents. exact Hc.
Qed.

(** ** The text of a stripped version is no longer *)

Lemma string_length_app (s t : string) :
  String.length (s ++ t) = String.length s + String.length t.
Proof.
  induction s as [|c s IH]; [reflexivity|].
  rewrite app_cons. cbn [String.length]. rewrite IH. reflexivity.
Qed.

Lemma join_cons (sep x y : string) (r : list string) :
  Str.join sep (x :: y :: r) = x ++ sep ++ Str.join sep (y :: r).
Proof. reflexivity. Qed.

Lemma join_cons_length (sep x : string) (l : list string) :
  String.length (Str.join sep l) <= String.length (Str.join sep (x :: l)).
Proof.
  destruct l as [|y r]; [cbn; lia|].
  rewrite join_cons, !string_length_app. lia.
Qed.

Lemma join_sublist (sep : string) (l l' : list string) :
  sublist l' l -> String.length (Str.join sep l') <= String.length (Str.join sep l).
Proof.
  intros H. induction H as [|x l1 l2 H IH|x l1 l2 H IH].
  - reflexivity.
  - destruct l1 as [|y1 r1].
    + destruct l2 as [|y2 r2]; [reflexivity|].
      rewrite join_cons, string_length_app. cbn [Str.join]. lia.
    + destruct l2 as [|y2 r2]; [inversion H|].
      rewrite !join_cons, !string_length_app. lia.
  - etransitivity; [exact IH|apply join_cons_length].
Qed.

Lemma sublist_map {A B} (f : A -> B) (l l' : list A) :
  sublist l' l -> sublist (map f l') (map f l).
Proof.
  intros H. induction H; cbn; [constructor|apply sublist_skip|apply sublist_cons]; assumption.
Qed.

Lemma sublist_filter_bool {A} (p : A -> bool) (l l' : list A) :
  sublist l' l -> sublist (List.filter p l') (List.filter p l).
Proof.
  intros H. induction H as [|x l1 l2 H IH|x l1 l2 H IH]; cbn.
  - constructor.
  - destruct (p x); [apply sublist_skip|]; exact IH.
  - destruct (p x); [apply sublist_cons|]; exact IH.
Qed.

Lemma strings_pruned (names : list string) (l l' : list node) :
  pruned names l l' -> sublist (flat_map Dom.strings l') (flat_map Dom.strings l).
Proof.
  intros H.
  induction H as [|name a contents l l' Hname _ IHl
                  |s l l' _ IHl|s l l' _ IHl
                  |name a contents contents' l l' _ IHc _ IHl]; cbn [flat_map Dom.strings].
  - constructor.
  - apply sublist_inserts_l. exact IHl.
  - apply sublist_skip. exact IHl.
  - exact IHl.
  - apply sublist_app; assumption.
Qed.

Lemma text_pruned (names : list string) (sep : string) (n n' : node) :
  pruned names [n] [n'] ->
  String.length (Dom.text sep n') <= String.length (Dom.text sep n).
Proof.
  intros H. unfold Dom.text, Dom.stripped_strings.
  apply join_sublist, sublist_filter_bool, sublist_map.
  pose proof (strings_pruned names [n] [n'] H) as Hs.
  cbn [flat_map] in Hs. rewrite !app_nil_r in Hs. exact Hs.
Qed.

(** ** A second run of an extractor *)

Lemma strip_text_found
    (names : list string) (test : string -> attrs -> bool) (el : element) (doc : soup) :
  Dom.search test doc = Some el ->
  exists n,
    found test doc = Some n /\
    fst (strip_text names el doc) = Dom.text Str.newline (Dom.decompose_in names n).
Proof.
  intros Hsearch.
  destruct (search_valid _ _ _ Hsearch) as (name & a & contents & Hat & _).
  exists (Tag name a contents). unfold found. rewrite Hsearch. cbn [mbind option_bind].
  split; [exact Hat|]. rewrite strip_text_run, Hat. reflexivity.
Qed.

Lemma found_none (test : string -> attrs -> bool) (doc : soup) :
  found test doc = None <-> Dom.search test doc = None.
Proof.
  unfold found. split.
  - destruct (Dom.search test doc) as [el|] eqn:Hsearch; [|reflexivity].
    destruct (search_valid _ _ _ Hsearch) as (name & a & contents & Hat & _).
    cbn [mbind option_bind]. rewrite Hat. discriminate.
  - intros ->. reflexivity.
Qed.

(** The text a selector or a region yields from a stripped version of the
    document, against the text it yields from the document. *)
Lemma strip_text_pruned
    (names names' : list string) (test : string -> attrs -> bool) (doc doc' : soup) :
  pruned names doc doc' ->
  forallb (outside names test) doc = true ->
  match Dom.search test doc, Dom.search test doc' with
  | Some el, Some el' =>
      let t := fst (strip_text names' el doc) in
      let t' := fst (strip_text names' el' doc') in
      String.length t' <= String.length t /\
      ((forall x, x ∈ names -> x ∈ names') -> t' = t)
  | None, None => True
  | _, _ => False
  end.
Proof.
  intros Hpruned Hout.
  pose proof (found_pruned names test doc doc' Hpruned Hout) as Hfound.
  destruct (Dom.search test doc) as [el|] eqn:Hs, (Dom.search test doc') as [el'|] eqn:Hs'.
  - destruct (strip_text_found names' test el doc Hs) as (n & Hn & ->).
    destruct (strip_text_found names' test el' doc' Hs') as (n' & Hn' & ->).
    rewrite Hn, Hn' in Hfound. cbv zeta. split.
    + apply (text_pruned names). apply pruned_decompose_both. exact Hfound.
    + intros Hsub. rewrite (decompose_pruned names names' n n' Hsub Hfound). reflexivity.
  - destruct (strip_text_found names' test el doc Hs) as (n & Hn & _).
    apply found_none in Hs'. rewrite Hn, Hs' in Hfound. exact Hfound.
  - destruct (strip_text_found names' test el' doc' Hs') as (n' & Hn' & _).
    apply found_none in Hs. rewrite Hn', Hs in Hfound. exact Hfound.
  - exact I.
Qed.

Lemma candidate_run (sel : selector) (doc : soup) :
  candidate sel doc =
  match Dom.search (css_match sel) doc with
  | Some el => (Some (fst (strip_text specific_tags el doc)),
                snd (strip_text specific_tags el doc))
  | None => (None, doc)
  end.
Proof.
  unfold candidate. rewrite bind_run, select_one_run. cbn [fst snd].
  destruct (Dom.search (css_match sel) doc) as [el|]; [|reflexivity].
  rewrite bind_run. reflexivity.
Qed.

Lemma prunes_candidate (sel : selector) : prunes specific_tags (candidate sel).
Proof.
  intros doc. rewrite candidate_run.
  destruct (Dom.search (css_match sel) doc) as [el|]; [|apply pruned_refl].
  cbn [snd]. apply (prunes_strip_text specific_tags specific_tags el). auto.
Qed.

Lemma pruned_specific_fallback (l l' : list node) :
  pruned specific_tags l l' -> pruned fallback_tags l l'.
Proof. apply pruned_more_names, specific_in_fallback. Qed.

Lemma too_short_shorter (c c' : string) :
  String.length c' <= String.length c -> too_short c = true -> too_short c' = true.
Proof.
  unfold too_short. intros Hle Hshort.
  apply orb_true_iff in Hshort as [Hempty|Hlt].
  - destruct c; [|discriminate]. destruct c'; [reflexivity|cbn in Hle; lia].
  - apply Nat.ltb_lt in Hlt. apply orb_true_iff. right. apply Nat.ltb_lt. lia.
Qed.

Section SecondRun.

(** The document the first run started from. *)
Variable doc0 : soup.

(** The selector loop returns the same text from the document and from a
    version of it that has lost some [script], [style], [nav], [footer] or
    [header] elements. *)
Lemma scan_pruned_specific (selectors : list selector) :
  Forall (fun sel => forallb (outside fallback_tags (css_match sel)) doc0 = true) selectors ->
  forall c doc, pruned specific_tags doc0 doc ->
    fst (scan selectors c doc) = fst (scan selectors c doc0).
Proof.
  induction 1 as [|sel rest Hsel _ IH]; intros c doc Hpruned; [reflexivity|].
  rewrite !scan_step.
  pose proof (prunes_candidate sel doc) as Hdoc.
  pose proof (prunes_candidate sel doc0) as Hdoc0.
  pose proof (strip_text_pruned specific_tags specific_tags (css_match sel) doc0 doc Hpruned
                (outside_fewer _ _ _ _ specific_in_fallback Hsel)) as Htext.
  rewrite !candidate_run in *.
  destruct (Dom.search (css_match sel) doc0) as [el0|],
           (Dom.search (css_match sel) doc) as [el|]; try destruct Htext.
  - cbv zeta in *. cbn [snd] in Hdoc, Hdoc0.
    rewrite (H0 (fun x Hx => Hx)).
    destruct (200 <? _)%nat; [reflexivity|].
    rewrite (IH _ _ (pruned_trans _ _ _ _ Hpruned Hdoc)).
    rewrite (IH _ _ Hdoc0). reflexivity.
  - apply IH. exact Hpruned.
Qed.

(** When the loop ends on a text that sends the first run to the fallback,
    it does so again from any stripped version of the document. *)
Lemma scan_pruned_fallback (selectors : list selector) :
  Forall (fun sel => forallb (outside fallback_tags (css_match sel)) doc0 = true) selectors ->
  forall c c' doc,
    pruned fallback_tags doc0 doc ->
    String.length c' <= String.length c ->
    too_short (fst (scan selectors c doc0)) = true ->
    too_short (fst (scan selectors c' doc)) = true.
Proof.
  intros Hall. pose proof (scan_pruned_specific _ Hall) as Hsame. revert Hsame.
  induction Hall as [|sel rest Hsel Hrest IH]; intros Hsame c c' doc Hpruned Hle Hshort.
  - exact (too_short_shorter c c' Hle Hshort).
  - assert (Hrest_same : forall c doc, pruned specific_tags doc0 doc ->
              fst (scan rest c doc) = fst (scan rest c doc0)).
    { apply scan_pruned_specific. exact Hrest. }
    specialize (IH Hrest_same).
    rewrite scan_step in Hshort |- *.
    pose proof (prunes_candidate sel doc) as Hdoc.
    pose proof (prunes_candidate sel doc0) as Hdoc0.
    pose proof (strip_text_pruned fallback_tags specific_tags (css_match sel) doc0 doc Hpruned
                  Hsel) as Htext.
    rewrite !candidate_run in *.
    assert (Hnext : forall d, pruned specific_tags doc d -> pruned fallback_tags doc0 d).
    { intros d Hd. eapply pruned_trans; [exact Hpruned|apply pruned_specific_fallback, Hd]. }
    destruct (Dom.search (css_match sel) doc0) as [el0|],
             (Dom.search (css_match sel) doc) as [el|]; try destruct Htext.
    + cbv zeta in *. cbn [snd] in Hdoc, Hdoc0.
      destruct (Nat.ltb_spec 200 (String.length (fst (strip_text specific_tags el0 doc0))))
        as [Hlong|Hok].
      * cbn [fst] in Hshort. rewrite too_short_false in Hshort by lia. discriminate.
      * destruct (Nat.ltb_spec 200 (String.length (fst (strip_text specific_tags el doc))))
          as [Hlong'|_]; [lia|].
        rewrite (Hrest_same _ _ Hdoc0) in Hshort.
        apply (IH _ _ _ (Hnext _ Hdoc) H Hshort).
    + apply (IH _ _ _ Hpruned Hle). exact Hshort.
Qed.

Lemma region_cons (t : strainer) (ts : list strainer) (c : string) (doc : soup) :
  region (t :: ts) c doc =
  match Dom.search (find_match t) doc with
  | Some el => strip_text fallback_tags el doc
  | None => region ts c doc
  end.
Proof.
  unfold region. cbn [find_first]. rewrite !bind_run, find_run. cbn [fst snd].
  destruct (Dom.search (find_match t) doc) as [el|]; [reflexivity|].
  reflexivity.
Qed.

Lemma region_found (ts : list strainer) (c c' : string) (doc : soup) :
  fst (find_first ts doc) <> None -> region ts c doc = region ts c' doc.
Proof.
  intros Hfound. unfold region. rewrite !bind_run.
  destruct (fst (find_first ts doc)); [reflexivity|]. destruct Hfound. reflexivity.
Qed.

(** The region search returns the same text from the document and from a
    stripped version of it: the text of the region, or [c] without one. *)
Lemma region_pruned (ts : list strainer) :
  Forall (fun t => forallb (outside fallback_tags (find_match t)) doc0 = true) ts ->
  forall c doc, pruned fallback_tags doc0 doc ->
    fst (region ts c doc) = fst (region ts c doc0) /\
    (fst (find_first ts doc0) = None -> region ts c doc = (c, doc)).
Proof.
  induction 1 as [|t rest Ht _ IH]; intros c doc Hpruned.
  - split; reflexivity.
  - rewrite !region_cons. cbn [find_first]. rewrite bind_run, find_run. cbn [fst snd].
    pose proof (strip_text_pruned fallback_tags fallback_tags (find_match t) doc0 doc Hpruned
                  Ht) as Htext.
    destruct (Dom.search (find_match t) doc0) as [el0|],
             (Dom.search (find_match t) doc) as [el|]; try destruct Htext.
    + cbv zeta in *. split; [apply H0; auto|discriminate].
    + apply IH. exact Hpruned.
Qed.

End SecondRun.

Lemma prunes_region_search (ts : list strainer) (c : string) :
  prunes fallback_tags (region ts c).
Proof. apply prunes_region. Qed.

Lemma extract_with_twice (selectors : list selector) (doc0 : soup) :
  Forall (fun sel => forallb (outside fallback_tags (css_match sel)) doc0 = true) selectors ->
  Forall (fun t => forallb (outside fallback_tags (find_match t)) doc0 = true)
    [ByName "main"; ByName "article"; ById "div" "content"] ->
  fst (extract_with selectors (snd (extract_with selectors doc0))) =
  fst (extract_with selectors doc0).
Proof.
  intros Hsel Hreg.
  set (regions := [ByName "main"; ByName "article"; ById "div" "content"]) in *.
  assert (Hrun : forall doc,
            extract_with selectors doc =
            if too_short (fst (scan selectors "" doc))
            then region regions (fst (scan selectors "" doc)) (snd (scan selectors "" doc))
            else scan selectors "" doc).
  { intros doc. unfold extract_with. rewrite bind_run.
    destruct (too_short _); [reflexivity|].
    unfold ret. destruct (scan selectors "" doc); reflexivity. }
  pose proof (prunes_scan specific_tags selectors "" (fun x Hx => Hx) doc0) as Hd.
  rewrite (Hrun doc0).
  destruct (too_short (fst (scan selectors "" doc0))) eqn:Hshort.
  - set (c := fst (scan selectors "" doc0)) in *.
    set (d := snd (scan selectors "" doc0)) in *.
    assert (Hd' : pruned fallback_tags doc0 d) by (apply pruned_specific_fallback, Hd).
    pose proof (prunes_region_search regions c d) as Hd2.
    assert (Hd2' : pruned fallback_tags doc0 (snd (region regions c d))).
    { eapply pruned_trans; [exact Hd'|exact Hd2]. }
    rewrite Hrun.
    rewrite (scan_pruned_fallback doc0 selectors Hsel "" "" _ Hd2' (le_n _) Hshort).
    pose proof (prunes_scan fallback_tags selectors "" specific_in_fallback
                  (snd (region regions c d))) as Hd3.
    destruct (region_pruned doc0 regions Hreg
                (fst (scan selectors "" (snd (region regions c d))))
                (snd (scan selectors "" (snd (region regions c d))))
                (pruned_trans _ _ _ _ Hd2' Hd3)) as [-> _].
    destruct (region_pruned doc0 regions Hreg c d Hd') as [-> Hnone].
    destruct (fst (find_first regions doc0)) as [el|] eqn:Hfound.
    + apply f_equal, region_found. rewrite Hfound. discriminate.
    + rewrite (Hnone eq_refl). cbn [snd].
      rewrite (scan_pruned_specific doc0 selectors Hsel "" _ Hd). reflexivity.
  - rewrite Hrun.
    rewrite (scan_pruned_specific doc0 selectors Hsel "" _ Hd), Hshort.
    apply (scan_pruned_specific doc0 selectors Hsel "" _ Hd).
Qed.

Lemma extract_generic_run (doc : soup) :
  extract_generic doc =
  let r := region [ByName "article"] "" doc in
  if too_short (fst r)
  then region [ByName "main"; ById "div" "content"; ByClass "div" "content"] (fst r) (snd r)
  else r.
Proof.
  cbv zeta. unfold extract_generic. rewrite region_cons, bind_run, find_run. cbn [fst snd].
  rewrite bind_run.
  destruct (Dom.search (find_match (ByName "article")) doc) as [el|].
  - change (decompose_all el fallback_tags;; get_text el Str.newline)
      with (strip_text fallback_tags el).
    destruct (too_short _); [reflexivity|].
    unfold ret. destruct (strip_text fallback_tags el doc); reflexivity.
  - reflexivity.
Qed.

Lemma extract_generic_pruned (doc0 doc : soup) :
  Forall (fun t => forallb (outside fallback_tags (find_match t)) doc0 = true)
    [ByName "article"; ByName "main"; ById "div" "content"; ByClass "div" "content"] ->
  pruned fallback_tags doc0 doc ->
  fst (extract_generic doc) = fst (extract_generic doc0).
Proof.
  intros Hall Hpruned.
  apply Forall_cons in Hall as [Harticle Hregions].
  assert (Hfirst : Forall (fun t => forallb (outside fallback_tags (find_match t)) doc0 = true)
                     [ByName "article"]) by (repeat constructor; exact Harticle).
  rewrite !extract_generic_run. cbv zeta.
  destruct (region_pruned doc0 _ Hfirst "" doc Hpruned) as [-> _].
  pose proof (prunes_region_search [ByName "article"] "" doc) as Hd.
  pose proof (prunes_region_search [ByName "article"] "" doc0) as Hd0.
  destruct (too_short _).
  - destruct (region_pruned doc0 _ Hregions (fst (region [ByName "article"] "" doc0)) _
                (pruned_trans _ _ _ _ Hpruned Hd)) as [-> _].
    destruct (region_pruned doc0 _ Hregions (fst (region [ByName "article"] "" doc0)) _ Hd0)
      as [-> _].
    reflexivity.
  - apply (region_pruned doc0 _ Hfirst "" doc Hpruned).
Qed.

(** C6, as the code has it.  The extractors strip the document they are
    given, and a second run works on what the first has left.  It returns
    the text of the first run whenever no element that a candidate selector
    or a fallback region of the source matches is a [script], [style],
    [nav], [footer], [header] or [aside] element or lies inside one: the
    first run can then have removed nothing a search of the second finds,
    although it may have removed what the page has of such elements. *)
Theorem extraction_repeatable_when_targets_outside (src : SourceId) (doc : soup) :
  targets_outside src doc ->
  fst (extract_content src (snd (extract_content src doc))) = fst (extract_content src doc).
Proof.
  unfold targets_outside, tests_of. intros Hall.
  apply List.Forall_app in Hall as [Hsel Hreg].
  apply List.Forall_map in Hsel, Hreg.
  destruct src; cbn [extract_content selectors_of regions_of] in *;
    try (apply extract_with_twice; assumption).
  apply extract_generic_pruned; [exact Hreg|apply prunes_extract_generic].
Qed.

Lemma extraction_repeatable_when_targets_outside_witness :
  let page :=
    [ Tag "div" (Attrs None ["left_zw"])
        [Tag "script" (Attrs None []) [Comment "track()"];
         Tag "p" (Attrs None []) [NavigableString " first "]];
      Tag "main" (Attrs None [])
        [Tag "aside" (Attrs None []) [NavigableString "related"];
         NavigableString "second"] ] in
  let left :=
    [ Tag "div" (Attrs None ["left_zw"]) [Tag "p" (Attrs None []) [NavigableString " first "]];
      Tag "main" (Attrs None []) [NavigableString "second"] ] in
  targets_outside chinanews page /\
  extract_content chinanews page = ("second", left) /\
  fst (extract_content chinanews (snd (extract_content chinanews page))) =
    fst (extract_content chinanews page).
Proof.
  cbv zeta.
  assert (Hout : targets_outside chinanews
            [ Tag "div" (Attrs None ["left_zw"])
                [Tag "script" (Attrs None []) [Comment "track()"];
                 Tag "p" (Attrs None []) [NavigableString " first "]];
              Tag "main" (Attrs None [])
                [Tag "aside" (Attrs None []) [NavigableString "related"];
                 NavigableString "second"] ]).
  { unfold targets_outside, tests_of. cbn [selectors_of regions_of chinanews_selectors map app].
    repeat constructor. }
  split; [exact Hout|]. split; [vm_compute; reflexivity|].
  exact (extraction_repeatable_when_targets_outside chinanews _ Hout).
Defined.

(** C6 as stated fails: the first run finds the [article] inside the
    [aside], falls back to [main] and strips the [aside] from the document;
    the second run, on the same document, finds the other [article]. *)
Lemma second_run_differs :
  let page :=
    [ Tag "main" (Attrs None [])
        [Tag "aside" (Attrs None []) [Tag "article" (Attrs None []) [NavigableString "a"]];
         NavigableString "m"];
      Tag "article" (Attrs None []) [NavigableString (Str.replicate 200 "x")] ] in
  fst (extract_content unknown page) = "m" /\
  fst (extract_content unknown (snd (extract_content unknown page))) = Str.replicate 200 "x" /\
  fst (extract_content unknown (snd (extract_content unknown page))) <>
    fst (extract_content unknown page).
Proof.
  cbv zeta. split; [vm_compute; reflexivity|].
  split; [vm_compute; reflexivity|vm_compute; discriminate].
Qed.

(** ** Classification and the rest of the URL *)

Lemma host_char_plain (c : ascii) :
  host_char c = true ->
  Ascii.eqb (ascii_of_nat 9) c = false /\
  Ascii.eqb (ascii_of_nat 13) c = false /\
  Ascii.eqb (ascii_of_nat 10) c = false /\
  Str.has_char c "/?#" = false /\
  Ascii.eqb "[" c = false /\
  Ascii.eqb "]" c = false.
Proof.
  destruct c as [[] [] [] [] [] [] [] []]; vm_compute; intros H;
    first [discriminate H | repeat split].
Qed.

Lemma delimiter_kept (c : ascii) :
  Str.has_char c "/?#" = true ->
  Ascii.eqb (ascii_of_nat 9) c = false /\
  Ascii.eqb (ascii_of_nat 13) c = false /\
  Ascii.eqb (ascii_of_nat 10) c = false.
Proof.
  destruct c as [[] [] [] [] [] [] [] []]; vm_compute; intros H;
    first [discriminate H | repeat split].
Qed.

Lemma remove_char_plain (c : ascii) (host rest : string) :
  Url.all_chars (fun d => negb (Ascii.eqb c d)) host = true ->
  Str.remove_char c (host ++ rest) = host ++ Str.remove_char c rest.
Proof.
  induction host as [|d host IH]; intros Hall; [reflexivity|].
  cbn [Url.all_chars] in Hall. apply andb_true_iff in Hall as [Hd Hhost].
  rewrite !app_cons. cbn [Str.remove_char].
  apply negb_true_iff in Hd. rewrite Hd, (IH Hhost). reflexivity.
Qed.

Lemma all_chars_impl (p q : ascii -> bool) (s : string) :
  (forall c, p c = true -> q c = true) ->
  Url.all_chars p s = true -> Url.all_chars q s = true.
Proof.
  intros Hpq. induction s as [|c s IH]; [reflexivity|].
  cbn [Url.all_chars]. intros H. apply andb_true_iff in H as [Hc Hs].
  rewrite (Hpq c Hc), (IH Hs). reflexivity.
Qed.

Lemma remove_unsafe_plain (host rest : string) :
  Url.all_chars host_char host = true ->
  Url.remove_unsafe (host ++ rest) = host ++ Url.remove_unsafe rest.
Proof.
  intros Hhost. unfold Url.remove_unsafe.
  rewrite !remove_char_plain; [reflexivity| | |];
    (eapply all_chars_impl; [|exact Hhost]); intros c Hc;
    destruct (host_char_plain c Hc) as (H9 & H13 & H10 & _);
    apply negb_true_iff; assumption.
Qed.

Lemma has_char_plain (c : ascii) (host : string) :
  Url.all_chars (fun d => negb (Ascii.eqb c d)) host = true ->
  Str.has_char c host = false.
Proof.
  induction host as [|d host IH]; [reflexivity|].
  cbn [Url.all_chars Str.has_char]. intros H. apply andb_true_iff in H as [Hd Hhost].
  apply negb_true_iff in Hd. rewrite Hd, (IH Hhost). reflexivity.
Qed.

Lemma upto_delim_plain (host rest : string) :
  Url.all_chars host_char host = true ->
  Url.upto_delim rest = "" ->
  Url.upto_delim (host ++ rest) = host.
Proof.
  intros Hhost Hrest. induction host as [|c host IH]; [exact Hrest|].
  cbn [Url.all_chars] in Hhost. apply andb_true_iff in Hhost as [Hc Hhost].
  rewrite app_cons. cbn [Url.upto_delim].
  destruct (host_char_plain c Hc) as (_ & _ & _ & Hdelim & _).
  rewrite Hdelim, (IH Hhost). reflexivity.
Qed.

Lemma netloc_of_plain_url (check : string -> bool) (secure : bool) (host rest : string) :
  Url.all_chars host_char host = true ->
  rest = "" \/ (exists c r, rest = String c r /\ Str.has_char c "/?#" = true) ->
  Url.urlparse_netloc check ((if secure then "https" else "http") ++ "://" ++ host ++ rest)
  = Returns host.
Proof.
  intros Hhost Hrest. unfold Url.urlparse_netloc.
  assert (Hurl :
    Url.drop_scheme
      (Url.remove_unsafe
         (Str.lstrip_by Url.c0_control_or_space
            ((if secure then "https" else "http") ++ "://" ++ host ++ rest)))
    = String "/" (String "/" (Url.remove_unsafe (host ++ rest)))).
  { destruct secure; reflexivity. }
  rewrite Hurl, (remove_unsafe_plain host rest Hhost).
  assert (Hcut : Url.upto_delim (host ++ Url.remove_unsafe rest) = host).
  { apply upto_delim_plain; [exact Hhost|].
    destruct Hrest as [->|(c & r & -> & Hc)]; [reflexivity|].
    destruct (delimiter_kept c Hc) as (H9 & H13 & H10).
    unfold Url.remove_unsafe. cbn [Str.remove_char]. rewrite H9.
    cbn [Str.remove_char]. rewrite H13. cbn [Str.remove_char]. rewrite H10.
    cbn [Url.upto_delim]. rewrite Hc. reflexivity. }
  rewrite Hcut.
  assert (Hl : Str.has_char "[" host = false).
  { apply has_char_plain. eapply all_chars_impl; [|exact Hhost]. intros c Hc.
    destruct (host_char_plain c Hc) as (_ & _ & _ & _ & Hl & _).
    apply negb_true_iff. exact Hl. }
  assert (Hr : Str.has_char "]" host = false).
  { apply has_char_plain. eapply all_chars_impl; [|exact Hhost]. intros c Hc.
    destruct (host_char_plain c Hc) as (_ & _ & _ & _ & _ & Hr).
    apply negb_true_iff. exact Hr. }
  rewrite Hl, Hr. reflexivity.
Qed.

Lemma app_empty_r (s : string) : s ++ "" = s.
Proof. induction s as [|c s IH]; [reflexivity|]. rewrite app_cons, IH. reflexivity. Qed.

(** For an [http] or [https] URL whose host is written with letters,
    digits, dots and hyphens, the network location is that host, so the
    classifier never raises on it and looks at the host alone: the path,
    query and fragment that follow do not change the source. *)
Theorem classification_ignores_path
    (check : string -> bool) (secure : bool) (host rest : string) :
  Url.all_chars host_char host = true ->
  rest = "" \/ (exists c r, rest = String c r /\ Str.has_char c "/?#" = true) ->
  let scheme := if secure then "https" else "http" in
  Url.urlparse_netloc check (scheme ++ "://" ++ host ++ rest) = Returns host /\
  identify_source check (scheme ++ "://" ++ host ++ rest) =
    identify_source check (scheme ++ "://" ++ host) /\
  exists src, identify_source check (scheme ++ "://" ++ host ++ rest) = Returns src.
Proof.
  intros Hhost Hrest scheme. unfold scheme.
  pose proof (netloc_of_plain_url check secure host rest Hhost Hrest) as Hnet.
  pose proof (netloc_of_plain_url check secure host "" Hhost (or_introl eq_refl)) as Hnet0.
  rewrite app_empty_r in Hnet0.
  split; [exact Hnet|]. unfold identify_source. rewrite Hnet, Hnet0.
  split; [reflexivity|]. eexists. reflexivity.
Qed.

Lemma classification_ignores_path_witness :
  identify_source (fun _ => false) "https://news.example.org/southcn/ycwb.com?chinanews.com.cn"
  = identify_source (fun _ => false) "https://news.example.org" /\
  identify_source (fun _ => false) "https://news.example.org" = Returns unknown.
Proof.
  split; [|reflexivity].
  refine (proj1 (proj2 (classification_ignores_path (fun _ => false) true
            "news.example.org" "/southcn/ycwb.com?chinanews.com.cn" _ _))).
  - reflexivity.
  - right. exists "/"%char, "southcn/ycwb.com?chinanews.com.cn". split; reflexivity.
Defined.

(** ** Metadata defaults *)

Lemma fill_nothing (key : string) (selectors : list selector)
    (m : gmap string string) (doc : soup) :
  Forall (fun sel => Dom.search (css_match sel) doc = None) selectors ->
  fill key selectors m doc = (m, doc).
Proof.
  induction 1 as [|sel rest Hsel _ IH]; [reflexivity|].
  cbn [fill]. rewrite bind_run, select_one_run. cbn [fst snd]. rewrite Hsel. exact IH.
Qed.

(** A field of the metadata for which no selector matches keeps its
    default, the empty string: [author] when no author selector matches, and
    [publish_date] when no date selector matches, whatever was found for the
    other field. *)
Theorem metadata_defaults (u : string) (doc : soup) :
  (Forall (fun sel => Dom.search (css_match sel) doc = None) author_selectors ->
   fst (extract_metadata u doc) !! "author" = Some "") /\
  (Forall (fun sel => Dom.search (css_match sel) doc = None) date_selectors ->
   fst (extract_metadata u doc) !! "publish_date" = Some "").
Proof.
  unfold extract_metadata. rewrite !bind_run. cbn [fst snd ret].
  set (m0 := <["source_url":=u]> (<["publish_date":=""]> (<["author":=""]> ∅))).
  assert (Hdom0 : dom m0 = ({["author"; "publish_date"; "source_url"]} : gset string)).
  { unfold m0. rewrite !dom_insert_L, dom_empty_L. set_solver. }
  destruct (fill_keys "author" author_selectors m0 doc) as [Hd1 Hl1].
  { rewrite Hdom0. set_solver. }
  rewrite (readonly_fill "author" author_selectors m0 doc).
  destruct (fill_keys "publish_date" date_selectors
              (fst (fill "author" author_selectors m0 doc)) doc) as [Hd2 Hl2].
  { rewrite Hd1, Hdom0. set_solver. }
  split.
  - intros Hnone. rewrite Hl2 by discriminate.
    rewrite (fill_nothing "author" author_selectors m0 doc Hnone). reflexivity.
  - intros Hnone.
    rewrite (fill_nothing "publish_date" date_selectors _ doc Hnone). cbn [fst].
    rewrite Hl1 by discriminate. reflexivity.
Qed.

Lemma metadata_defaults_witness :
  let page := [Tag "time" (Attrs None []) [NavigableString "2025-03-02"]] in
  fst (extract_metadata "http://a.example/x" page) !! "author" = Some "" /\
  fst (extract_metadata "http://a.example/x" page) !! "publish_date" = Some "2025-03-02".
Proof.
  cbv zeta. split; [|vm_compute; reflexivity].
  refine (proj1 (metadata_defaults _ _) _). repeat constructor.
Defined.

(** ** The URLs taken from the API *)

Lemma collect_length (limit : nat) (articles : list article)
    (urls : list (string * option string)) (seen : gset (option string)) :
  length urls < limit ->
  length (fst (collect limit articles urls seen)) <= limit.
Proof.
  revert urls seen. induction articles as [|a rest IH]; intros urls seen Hlen.
  - cbn. lia.
  - cbn [collect]. destruct (get_url a) as [u|]; [|apply IH; exact Hlen].
    destruct (_ && _); [|apply IH; exact Hlen]. cbv zeta.
    destruct (Nat.leb_spec limit (length (urls ++ [(u, get_source a)])%list)) as [Hfull|Hroom].
    + cbn [fst]. rewrite length_app in *. cbn in *. lia.
    + apply IH. exact Hroom.
Qed.

Lemma collected_more (pool pool' : list article)
    (urls : list (string * option string)) (seen : gset (option string)) :
  (forall a, a ∈ pool -> a ∈ pool') -> collected pool urls seen -> collected pool' urls seen.
Proof.
  intros Hsub (Hnodup & Hseen & Hfrom). repeat split; try assumption; try apply Hseen.
  eapply Forall_impl; [exact Hfrom|].
  intros p (Hu & a & Ha & Hurl & Hsrc). split; [exact Hu|]. exists a. auto.
Qed.

Lemma collect_collected (limit : nat) (pool articles : list article)
    (urls : list (string * option string)) (seen : gset (option string)) :
  (forall a, a ∈ articles -> a ∈ pool) ->
  collected pool urls seen ->
  collected pool (fst (collect limit articles urls seen))
                 (snd (collect limit articles urls seen)).
Proof.
  revert urls seen. induction articles as [|a rest IH]; intros urls seen Hsub Hinv.
  - exact Hinv.
  - assert (Hrest : forall b, b ∈ rest -> b ∈ pool).
    { intros b Hb. apply Hsub. right. exact Hb. }
    cbn [collect]. destruct (get_url a) as [u|] eqn:Hurl; [|apply IH; assumption].
    destruct (Str.is_empty u) eqn:Hempty; cbn [negb andb]; [apply IH; assumption|].
    destruct (bool_decide_reflect (get_source a ∈ seen)) as [Hin|Hnew]; cbn [negb];
      [apply IH; assumption|].
    cbv zeta.
    assert (Hnext : collected pool (urls ++ [(u, get_source a)])%list ({[get_source a]} ∪ seen)).
    { destruct Hinv as (Hnodup & Hseen & Hfrom). repeat split.
      - rewrite map_app. cbn [map].
        apply NoDup_app. split; [exact Hnodup|]. split; [|apply NoDup_singleton].
        intros s Hs Hs'. apply list_elem_of_singleton in Hs'. subst s.
        apply Hnew, Hseen, Hs.
      - rewrite map_app, elem_of_app. cbn [map].
        rewrite elem_of_union, elem_of_singleton, list_elem_of_singleton.
        intros [->|Hs]; [right; reflexivity|left; apply Hseen, Hs].
      - rewrite map_app, elem_of_app. cbn [map].
        rewrite elem_of_union, elem_of_singleton, list_elem_of_singleton.
        intros [Hs | ->]; [right; apply Hseen, Hs|left; reflexivity].
      - apply Forall_app. split; [exact Hfrom|].
        constructor; [|constructor]. cbn [fst snd]. split.
        + apply is_empty_false. exact Hempty.
        + exists a. split; [apply Hsub; left|]; auto. }
    destruct (limit <=? _)%nat; [exact Hnext|apply IH; assumption].
Qed.

Lemma collected_nothing (pool : list article) : collected pool [] ∅.
Proof.
  repeat split.
  - constructor.
  - intros Hs. apply not_elem_of_empty in Hs. destruct Hs.
  - cbn. intros Hs. apply not_elem_of_nil in Hs. destruct Hs.
  - constructor.
Qed.

(** [get_test_urls_from_api] returns at most 8 URLs, and at most 5 when
    the second reply does not have code 200. *)
Theorem test_urls_at_most_eight
    (key : key_file) (reply reply2 : api_reply) (urls : list string) :
  get_test_urls_from_api key reply reply2 = Done urls ->
  length urls <= 8 /\
  (forall code msg result,
     reply2 = ApiData code msg result -> code <> Some 200%Z -> length urls <= 5).
Proof.
  unfold get_test_urls_from_api. intros Hrun.
  destruct key as [k| |e]; [|injection Hrun as <-; cbn; split; intros; lia|discriminate].
  destruct reply as [|code msg result]; [injection Hrun as <-; cbn; split; intros; lia|].
  destruct (is_200 code); [|injection Hrun as <-; cbn; split; intros; lia].
  pose proof (collect_length 5 (articles_of result) [] ∅) as Hfirst.
  destruct (collect 5 (articles_of result) [] ∅) as [urls1 seen1].
  cbn [fst length] in Hfirst. specialize (Hfirst ltac:(lia)).
  destruct reply2 as [|code2 msg2 result2]; [injection Hrun as <-; cbn; split; intros; lia|].
  unfold is_200 in Hrun.
  destruct (bool_decide_reflect (code2 = Some 200%Z)) as [H200|Hnot].
  - pose proof (collect_length 8 (articles_of result2) urls1 seen1) as Hsecond.
    destruct (collect 8 (articles_of result2) urls1 seen1) as [urls2 seen2].
    cbn [fst] in Hsecond. specialize (Hsecond ltac:(lia)).
    injection Hrun as <-. rewrite length_map. split; [exact Hsecond|].
    intros c m r Heq Hc. congruence.
  - injection Hrun as <-. rewrite length_map. split; [lia|]. intros; lia.
Qed.

Lemma test_urls_at_most_eight_witness :
  let a (u s : string) : article := <["url" := Some u]> (<["source" := Some s]> ∅) in
  get_test_urls_from_api (KeyText "k")
    (ApiData (Some 200%Z) None (ResultArray [a "u1" "s1"; a "u2" "s1"; a "" "s2"]))
    (ApiData (Some 500%Z) None ResultOther) = Done ["u1"] /\
  length ["u1"] <= 5.
Proof.
  cbv zeta.
  assert (Hrun : get_test_urls_from_api (KeyText "k")
            (ApiData (Some 200%Z) None
               (ResultArray
                  [<["url" := Some "u1"]> (<["source" := Some "s1"]> ∅);
                   <["url" := Some "u2"]> (<["source" := Some "s1"]> ∅);
                   <["url" := Some ""]> (<["source" := Some "s2"]> ∅)]))
            (ApiData (Some 500%Z) None ResultOther) = Done ["u1"]).
  { vm_compute. reflexivity. }
  split; [exact Hrun|].
  refine (proj2 (test_urls_at_most_eight _ _ _ _ Hrun) (Some 500%Z) None ResultOther _ _).
  - reflexivity.
  - discriminate.
Defined.

(** Every URL [get_test_urls_from_api] returns is the non-empty [url] of
    an article of one of the two replies, and the URLs returned stand for
    pairwise different sources: the list is the first components of pairs
    (url, source) in which no source occurs twice. *)
Theorem test_urls_one_per_source
    (key : key_file) (reply reply2 : api_reply) (urls : list string) :
  get_test_urls_from_api key reply reply2 = Done urls ->
  exists pairs,
    urls = map fst pairs /\
    NoDup (map snd pairs) /\
    Forall (fun p =>
              fst p <> "" /\
              exists a, a ∈ (reply_articles reply ++ reply_articles reply2)%list /\
                        get_url a = Some (fst p) /\ get_source a = snd p)
           pairs.
Proof.
  unfold get_test_urls_from_api. intros Hrun.
  assert (Hnone : Done [] = Done urls ->
    exists pairs : list (string * option string),
      urls = map fst pairs /\ NoDup (map snd pairs) /\
      Forall (fun p => fst p <> "" /\
                exists a, a ∈ (reply_articles reply ++ reply_articles reply2)%list /\
                          get_url a = Some (fst p) /\ get_source a = snd p) pairs).
  { intros [= <-]. exists []. repeat split; constructor. }
  destruct key as [k| |e]; [|auto|discriminate].
  destruct reply as [|code msg result]; [auto|].
  destruct (is_200 code); [|auto].
  pose proof (collect_collected 5 (articles_of result) (articles_of result) [] ∅
                (fun a H => H) (collected_nothing _)) as Hfirst.
  destruct (collect 5 (articles_of result) [] ∅) as [urls1 seen1].
  cbn [fst snd] in Hfirst.
  destruct reply2 as [|code2 msg2 result2]; [auto|].
  cbn [reply_articles].
  pose proof (collected_more _ (articles_of result ++ articles_of result2)%list _ _
                (fun a H => proj2 (elem_of_app _ _ a) (or_introl H)) Hfirst) as Hfirst'.
  destruct (is_200 code2).
  - pose proof (collect_collected 8 (articles_of result ++ articles_of result2)%list
                  (articles_of result2) urls1 seen1
                  (fun a H => proj2 (elem_of_app _ _ a) (or_intror H)) Hfirst') as Hsecond.
    destruct (collect 8 (articles_of result2) urls1 seen1) as [urls2 seen2].
    cbn [fst snd] in Hsecond. injection Hrun as <-.
    exists urls2. destruct Hsecond as (Hnodup & _ & Hfrom). auto.
  - injection Hrun as <-.
    exists urls1. destruct Hfirst' as (Hnodup & _ & Hfrom). auto.
Qed.

Lemma test_urls_one_per_source_witness :
  let a (u s : string) : article := <["url" := Some u]> (<["source" := Some s]> ∅) in
  exists pairs,
    ["u1"; "u3"] = map fst pairs /\ NoDup (map snd pairs) /\
    Forall (fun p =>
              fst p <> "" /\
              exists b, b ∈ (reply_articles
                               (ApiData (Some 200%Z) None
                                  (ResultObject (Some [a "u1" "s1"; a "u2" "s1"]))) ++
                             reply_articles
                               (ApiData (Some 200%Z) None (ResultArray [a "u3" "s3"])))%list /\
                        get_url b = Some (fst p) /\ get_source b = snd p)
           pairs.
Proof.
  cbv zeta.
  refine (test_urls_one_per_source (KeyText "k") _ _ _ _).
  vm_compute. reflexivity.
Defined.

(** What is lost on a failure: without the key file the function returns
    no URL; so it does when the first request raises or its reply does not
    have code 200; and when the second request raises, the URLs collected
    from the first reply are dropped too. *)
Theorem test_urls_empty_on_failure (k : string) (reply reply2 : api_reply) :
  get_test_urls_from_api KeyNotFound reply reply2 = Done [] /\
  get_test_urls_from_api (KeyText k) ApiRaises reply2 = Done [] /\
  (forall code msg result,
     code <> Some 200%Z ->
     get_test_urls_from_api (KeyText k) (ApiData code msg result) reply2 = Done []) /\
  get_test_urls_from_api (KeyText k) reply ApiRaises = Done [].
Proof.
  repeat split.
  - intros code msg result Hcode. cbn. unfold is_200.
    destruct (bool_decide_reflect (code = Some 200%Z)); [contradiction|reflexivity].
  - cbn. destruct reply as [|code msg result]; [reflexivity|].
    destruct (is_200 code); [|reflexivity].
    destruct (collect 5 (articles_of result) [] ∅). reflexivity.
Qed.

(** ** The batch *)

Section Batch.

Variable check : string -> bool.
Variable get : nat -> string -> response.
Variable parse : string -> parsed.

Lemma crawl_from_cons (i : nat) (u : string) (rest : list string) :
  crawl_from check get parse i (u :: rest) =
  match crawl_article check (get i) parse u with
  | Raises e => Raises e
  | Returns result =>
      match crawl_from check get parse (S i) rest with
      | Raises e => Raises e
      | Returns results => Returns (result :: results)
      end
  end.
Proof. reflexivity. Qed.

Lemma crawl_from_results (i : nat) (urls : list string) (results : list ExtractionResult) :
  crawl_from check get parse i urls = Returns results ->
  map url results = urls /\
  Forall (fun u => exists netloc, Url.urlparse_netloc check u = Returns netloc) urls /\
  Forall (fun r => success r = true -> 100 < content_length r) results.
Proof.
  revert i results. induction urls as [|u rest IH]; intros i results Hrun.
  - injection Hrun as <-. repeat split; constructor.
  - rewrite crawl_from_cons in Hrun.
    destruct (Url.urlparse_netloc check u) as [netloc|e] eqn:Hnet.
    + destruct (crawl_article_returns check (get i) parse u netloc Hnet)
        as (r & Hr & Hurl & _ & _ & Hlong).
      rewrite Hr in Hrun.
      destruct (crawl_from check get parse (S i) rest) as [rs|e] eqn:Hrest; [|discriminate].
      injection Hrun as <-. destruct (IH (S i) rs Hrest) as (Hurls & Hok & Hall).
      cbn [map]. rewrite Hurl, Hurls. repeat split; constructor; eauto.
    + unfold crawl_article, identify_source in Hrun. rewrite Hnet in Hrun. discriminate.
Qed.

(** The loop of [main] keeps one result per URL, in order; it returns
    exactly when [urlparse] returns on every URL, and otherwise ends the
    whole batch with the exception of the first URL on which it raises. *)
Theorem batch_in_order_or_raises (i : nat) (urls : list string) :
  match crawl_from check get parse i urls with
  | Returns results =>
      map url results = urls /\
      Forall (fun u => exists netloc, Url.urlparse_netloc check u = Returns netloc) urls
  | Raises e =>
      exists before u after,
        urls = (before ++ u :: after)%list /\
        Url.urlparse_netloc check u = Raises e /\
        Forall (fun v => exists netloc, Url.urlparse_netloc check v = Returns netloc) before
  end.
Proof.
  destruct (crawl_from check get parse i urls) as [results|e] eqn:Hrun.
  - destruct (crawl_from_results i urls results Hrun) as (Hurls & Hok & _). auto.
  - revert i Hrun. induction urls as [|u rest IH]; intros i Hrun; [discriminate|].
    rewrite crawl_from_cons in Hrun.
    destruct (Url.urlparse_netloc check u) as [netloc|e'] eqn:Hnet.
    + destruct (crawl_article_returns check (get i) parse u netloc Hnet) as (r & Hr & _).
      rewrite Hr in Hrun.
      destruct (crawl_from check get parse (S i) rest) as [rs|e''] eqn:Hrest; [discriminate|].
      injection Hrun as ->.
      destruct (IH (S i) Hrest) as (before & v & after & -> & Hv & Hbefore).
      exists (u :: before), v, after. repeat split; auto.
      constructor; eauto.
    + unfold crawl_article, identify_source in Hrun. rewrite Hnet in Hrun.
      injection Hrun as ->.
      exists [], u, rest. repeat split; auto.
Qed.

Lemma successes_counted (results : list ExtractionResult) :
  Forall (fun r => success r = true -> 100 < content_length r) results ->
  successful results <= length results /\
  101 * successful results <= total_length results.
Proof.
  unfold successful, total_length, list_sum.
  induction 1 as [|r rs Hr _ IH]; [cbn; lia|].
  cbn [List.filter]. destruct (success r) eqn:Hs; cbn [map fold_right length].
  - specialize (Hr eq_refl). lia.
  - lia.
Qed.

(** The summary of [main]: the number of successful results is at most the
    number of URLs crawled, and the total length reported is at least 101
    characters per successful result. *)
Theorem batch_summary (i : nat) (urls : list string) (results : list ExtractionResult) :
  crawl_from check get parse i urls = Returns results ->
  length results = length urls /\
  successful results <= length urls /\
  101 * successful results <= total_length results.
Proof.
  intros Hrun. destruct (crawl_from_results i urls results Hrun) as (Hurls & _ & Hall).
  assert (Hlen : length results = length urls).
  { rewrite <- Hurls. symmetry. apply length_map. }
  destruct (successes_counted results Hall) as [Hcount Htotal].
  repeat split; [exact Hlen|lia|exact Htotal].
Qed.

Variable key : key_file.
Variables reply reply2 : api_reply.
Variable dump : list ExtractionResult -> option string.

(** When the API gives no URL, [main] crawls the three built-in URLs: the
    crawl of none of them raises, whatever the network and the parser do, and
    the three results are those of a southcn, a ycwb and a chinanews page, in
    that order; [main] returns them unless writing the results file fails. *)
Theorem main_falls_back :
  get_test_urls_from_api key reply reply2 = Done [] ->
  exists results,
    crawl_from check get parse 0 fallback_urls = Returns results /\
    map url results = fallback_urls /\
    map source results = [southcn; ycwb; chinanews] /\
    main check get parse key reply reply2 dump =
      match dump results with
      | Some e => Failed (IOError e)
      | None => Done results
      end.
Proof.
  intros Hnone. unfold main. rewrite Hnone. cbv zeta iota. unfold fallback_urls.
  rewrite !crawl_from_cons.
  destruct (crawl_article_returns check (get 0) parse
              "https://xapp.southcn.com/node_2ea31fe5fd/b150021036.shtml"
              "xapp.southcn.com" eq_refl) as (r1 & -> & Hu1 & Hs1 & _).
  destruct (crawl_article_returns check (get 1) parse
              "https://news.ycwb.com/ikinvjktjn/content_53731774.htm"
              "news.ycwb.com" eq_refl) as (r2 & -> & Hu2 & Hs2 & _).
  destruct (crawl_article_returns check (get 2) parse
              "http://www.gd.chinanews.com.cn/2025/2025-03-02/440615.shtml"
              "www.gd.chinanews.com.cn" eq_refl) as (r3 & -> & Hu3 & Hs3 & _).
  cbn [crawl_from]. exists [r1; r2; r3]. split; [reflexivity|].
  split; [cbn [map]; rewrite Hu1, Hu2, Hu3; reflexivity|].
  split; [|reflexivity].
  assert (H1 : identify_source check
                 "https://xapp.southcn.com/node_2ea31fe5fd/b150021036.shtml"
               = Returns southcn) by (vm_compute; reflexivity).
  assert (H2 : identify_source check
                 "https://news.ycwb.com/ikinvjktjn/content_53731774.htm"
               = Returns ycwb) by (vm_compute; reflexivity).
  assert (H3 : identify_source check
                 "http://www.gd.chinanews.com.cn/2025/2025-03-02/440615.shtml"
               = Returns chinanews) by (vm_compute; reflexivity).
  rewrite H1 in Hs1. rewrite H2 in Hs2. rewrite H3 in Hs3.
  cbn [map]. congruence.
Qed.

End Batch.

Lemma batch_summary_witness :
  let get (i : nat) (u : string) := if Nat.eqb i 0 then Page "p" else RaisesTimeout in
  let parse (html : string) :=
    Document [Tag "article" (Attrs None []) [NavigableString (Str.replicate 150 "z")]] in
  exists results,
    crawl_from (fun _ => true) get parse 0 ["http://a.example/1"; "http://a.example/2"]
      = Returns results /\
    successful results = 1 /\ total_length results = 150 /\
    101 * successful results <= total_length results.
Proof.
  intros get parse.
  destruct (crawl_from (fun _ => true) get parse 0
              ["http://a.example/1"; "http://a.example/2"]) as [results|e] eqn:Hrun;
    [|vm_compute in Hrun; discriminate Hrun].
  exists results. split; [reflexivity|].
  pose proof (proj2 (proj2 (batch_summary (fun _ => true) get parse 0 _ _ Hrun))) as Hsum.
  vm_compute in Hrun. injection Hrun as <-.
  split; [reflexivity|]. split; [reflexivity|]. exact Hsum.
Defined.

Lemma main_falls_back_witness :
  exists results,
    main (fun _ => true) (fun _ _ => RaisesTimeout) (fun _ => Document [])
      KeyNotFound ApiRaises ApiRaises (fun _ => None) = Done results /\
    map source results = [southcn; ycwb; chinanews].
Proof.
  destruct (main_falls_back (fun _ => true) (fun _ _ => RaisesTimeout) (fun _ => Document [])
              KeyNotFound ApiRaises ApiRaises (fun _ => None) eq_refl)
    as (results & _ & _ & Hsources & Hmain).
  exists results. split; [exact Hmain|exact Hsources].
Defined.

(** ** Counting sources *)

Lemma count_of_count_up (k k' : option string) (c : list (option string * nat)) :
  count_of (count_up k c) k' =
  if decide (k' = k) then S (count_of c k') else count_of c k'.
Proof.
  induction c as [|[k0 n] r IH]; cbn [count_up count_of].
  - destruct (decide (k' = k)); reflexivity.
  - destruct (decide (k = k0)) as [->|Hne]; cbn [count_of].
    + destruct (decide (k' = k0)); reflexivity.
    + rewrite IH. destruct (decide (k' = k0)) as [->|Hne']; [|reflexivity].
      destruct (decide (k0 = k)); [congruence|reflexivity].
Qed.

Lemma keys_count_up (k x : option string) (c : list (option string * nat)) :
  x ∈ map fst (count_up k c) <-> x = k \/ x ∈ map fst c.
Proof.
  induction c as [|[k0 n] r IH]; cbn [count_up map fst].
  - rewrite list_elem_of_singleton. split; [auto|intros [H|H]; [exact H|]].
    apply not_elem_of_nil in H. destruct H.
  - destruct (decide (k = k0)) as [->|Hne]; cbn [map fst].
    + rewrite elem_of_cons. tauto.
    + rewrite !elem_of_cons, IH. tauto.
Qed.

Lemma nodup_count_up (k : option string) (c : list (option string * nat)) :
  NoDup (map fst c) -> NoDup (map fst (count_up k c)).
Proof.
  induction c as [|[k0 n] r IH]; cbn [count_up map fst]; intros Hnodup.
  - apply NoDup_singleton.
  - apply NoDup_cons in Hnodup as [Hk0 Hr].
    destruct (decide (k = k0)) as [->|Hne]; cbn [map fst].
    + apply NoDup_cons. auto.
    + apply NoDup_cons. split; [|apply IH; exact Hr].
      rewrite keys_count_up. intros [H|H]; [congruence|contradiction].
Qed.

Lemma sum_count_up (k : option string) (c : list (option string * nat)) :
  list_sum (map snd (count_up k c)) = S (list_sum (map snd c)).
Proof.
  unfold list_sum.
  induction c as [|[k0 n] r IH]; cbn [count_up map snd fold_right]; [reflexivity|].
  destruct (decide (k = k0)); cbn [map snd fold_right]; [reflexivity|].
  rewrite IH. lia.
Qed.

Lemma counter_from (l : list (option string)) (c : list (option string * nat)) :
  NoDup (map fst c) ->
  NoDup (map fst (fold_left (fun c k => count_up k c) l c)) /\
  (forall k, count_of (fold_left (fun c k => count_up k c) l c) k
             = count_of c k + occurrences k l) /\
  (forall k, k ∈ map fst (fold_left (fun c k => count_up k c) l c)
             <-> k ∈ map fst c \/ k ∈ l) /\
  list_sum (map snd (fold_left (fun c k => count_up k c) l c))
    = list_sum (map snd c) + length l.
Proof.
  revert c. induction l as [|x l IH]; intros c Hnodup.
  - cbn [fold_left]. unfold occurrences. cbn. repeat split; auto; try lia.
    + intros [H|H]; [exact H|]. apply not_elem_of_nil in H. destruct H.
  - cbn [fold_left].
    destruct (IH (count_up x c) (nodup_count_up x c Hnodup)) as (Hn & Hcount & Hkeys & Hsum).
    repeat split.
    + exact Hn.
    + intros k. rewrite Hcount, count_of_count_up. unfold occurrences.
      cbn [List.filter].
      destruct (decide (k = x)) as [->|Hne].
      * rewrite bool_decide_eq_true_2 by reflexivity. cbn [length]. lia.
      * rewrite bool_decide_eq_false_2 by congruence. lia.
    + rewrite Hkeys, keys_count_up, elem_of_cons. intros [[H|H]|H]; auto.
    + rewrite Hkeys, keys_count_up, elem_of_cons. intros [H|[H|H]]; auto.
    + rewrite Hsum, sum_count_up. cbn [length]. lia.
Qed.

Lemma count_with_le (field : string) (articles : list article) :
  count_with field articles <= length articles.
Proof.
  unfold count_with, list_sum.
  induction articles as [|a rest IH]; [reflexivity|].
  cbn [List.filter]. destruct (truthy (get_field field a)); cbn [map fold_right length]; lia.
Qed.

(** The report of a successful [test_api] call is consistent: the sources
    are the keys of the counter and none occurs twice; the count of a source
    is the number of articles that have it (0 for a source of no article);
    the sources listed are exactly those of the articles; the counts add up
    to the number of articles; and no more articles are counted with a
    description or a URL than there are. *)
Theorem report_counts_articles (reply : test_reply) (r : report) :
  test_api reply = Succeeded r ->
  total_articles r = length (report_articles r) /\
  report_sources r = map fst (source_counts r) /\
  NoDup (report_sources r) /\
  (forall k, count_of (source_counts r) k
             = occurrences k (map get_source_or_unknown (report_articles r))) /\
  (forall k, k ∈ report_sources r <->
             exists a, a ∈ report_articles r /\ get_source_or_unknown a = k) /\
  list_sum (map snd (source_counts r)) = total_articles r /\
  articles_with_description r <= total_articles r /\
  articles_with_url r <= total_articles r.
Proof.
  unfold test_api. intros Hrun.
  destruct reply as [e| |code msg result]; try discriminate.
  destruct (is_200 code); [|discriminate].
  injection Hrun as <-.
  cbn [total_articles report_articles report_sources source_counts
       articles_with_description articles_with_url].
  destruct (counter_from (map get_source_or_unknown (articles_of result)) []
              (NoDup_nil_2 (A:=option string))) as (Hnodup & Hcount & Hkeys & Hsum).
  fold (Counter (map get_source_or_unknown (articles_of result))) in *.
  split; [reflexivity|]. split; [reflexivity|]. split; [exact Hnodup|].
  split; [intros k; rewrite Hcount; reflexivity|].
  split; [|split; [rewrite Hsum, length_map; reflexivity|split; apply count_with_le]].
  intros k. split.
  - intros Hk. apply Hkeys in Hk as [Hk|Hk].
    + apply not_elem_of_nil in Hk. destruct Hk.
    + apply list_elem_of_fmap in Hk as (a & -> & Ha). exists a. auto.
  - intros (a & Ha & <-). apply Hkeys. right.
    apply list_elem_of_fmap. exists a. auto.
Qed.

Lemma report_counts_articles_witness :
  let a (s : string) : article := <["source" := Some s]> ∅ in
  exists r,
    test_api (Data (Some 200%Z) None
                (ResultObject (Some [a "nfw"; a "ycwb"; a "nfw"; ∅]))) = Succeeded r /\
    source_counts r = [(Some "nfw", 2); (Some "ycwb", 1); (Some "Unknown", 1)] /\
    list_sum (map snd (source_counts r)) = total_articles r.
Proof.
  cbv zeta. eexists. split; [vm_compute; reflexivity|]. split; [reflexivity|].
  refine (proj1 (proj2 (proj2 (proj2 (proj2 (proj2
            (report_counts_articles
               (Data (Some 200%Z) None
                  (ResultObject
                     (Some [<["source" := Some "nfw"]> ∅; <["source" := Some "ycwb"]> ∅;
                            <["source" := Some "nfw"]> ∅; ∅]))) _ _))))))).
  vm_compute. reflexivity.
Defined.

(** ** The full-text check *)

Section FulltextFacts.

Variable head : nat -> string -> head_reply.

Lemma truthy_some (v : option string) :
  truthy v = true -> exists s, v = Some s /\ s <> "".
Proof.
  destruct v as [s|]; [|discriminate]. cbn [truthy]. intros H.
  exists s. split; [reflexivity|]. apply is_empty_false, negb_true_iff, H.
Qed.

Lemma fulltext_entry_none (i : nat) (a : article) (u : string) :
  fulltext_entry head i a u = None <->
  a !! "description" = Some None \/ get_field "title" a = None.
Proof.
  unfold fulltext_entry.
  destruct (a !! "description") as [[d|]|] eqn:Hd;
    destruct (get_field "title" a) as [t|] eqn:Ht;
    split; try discriminate; try tauto; intros [H|H]; discriminate.
Qed.

Lemma fulltext_entry_some (i : nat) (a : article) (u : string) (e : info) :
  get_field "url" a = Some u -> u <> "" ->
  fulltext_entry head i a u = Some e -> entry_of (head i u) e a /\ info_url e = u.
Proof.
  unfold fulltext_entry, entry_of. intros Hu Hne.
  destruct (a !! "description") as [[d|]|] eqn:Hd;
    try discriminate;
    destruct (get_field "title" a) as [t|]; try discriminate;
    intros [= <-]; cbn [info_url info_title info_source has_description
                        description_length url_accessible info_status_code
                        info_content_type info_error];
    (split; [|reflexivity]);
    (split; [exact Hu|]); (split; [exact Hne|]); (split; [reflexivity|]);
    (split; [reflexivity|]); (split; [reflexivity|]);
    (split; [unfold get_field; rewrite Hd; reflexivity|]);
    (destruct (head i u) as [st ct|err]; cbn [fst snd];
     [rewrite bool_decide_eq_true|]; repeat split; auto).
Qed.

Lemma imap_pair_shift (i : nat) (articles : list article) :
  imap (fun j a => (i + j, a)) articles =
  match articles with
  | [] => []
  | a :: rest => (i + 0, a) :: imap (fun j a => (S i + j, a)) rest
  end.
Proof.
  destruct articles as [|a rest]; [reflexivity|].
  cbn [imap]. f_equal. apply imap_ext. intros j x _. cbn. f_equal. lia.
Qed.

Lemma fulltext_loop_outcome (i : nat) (articles : list article) :
  match fulltext_loop head i articles with
  | Some entries =>
      ~ Exists breaks_fulltext articles /\
      Forall2 (fun e p => entry_of (head (fst p) (info_url e)) e (snd p)) entries
        (List.filter (fun p => truthy (get_field "url" (snd p)))
           (imap (fun j a => (i + j, a)) articles))
  | None => Exists breaks_fulltext articles
  end.
Proof.
  revert i. induction articles as [|a rest IH]; intros i.
  - cbn. split; [intros H; inversion H|constructor].
  - cbn [fulltext_loop]. rewrite imap_pair_shift. cbn [List.filter snd].
    specialize (IH (S i)).
    destruct (truthy (get_field "url" a)) eqn:Hurl.
    + destruct (truthy_some _ Hurl) as (u & Hu & Hne). rewrite Hu.
      change (default "" (Some u)) with u.
      destruct (fulltext_entry head i a u) as [e|] eqn:He.
      * destruct (fulltext_loop head (S i) rest) as [entries|]; cbv beta iota in IH.
        -- destruct IH as [Hok Hall]. split.
           ++ intros Hex. apply Exists_cons in Hex as [Hbad|Hex]; [|auto].
              destruct Hbad as [_ Hbad].
              apply (fulltext_entry_none i a u) in Hbad. congruence.
           ++ constructor; [|exact Hall].
              destruct (fulltext_entry_some i a u e Hu Hne He) as [Hentry ->].
              cbn [fst snd]. rewrite Nat.add_0_r. exact Hentry.
        -- apply Exists_cons. right. exact IH.
      * apply Exists_cons. left. split; [exact Hurl|].
        apply (fulltext_entry_none i a u). exact He.
    + destruct (fulltext_loop head (S i) rest) as [entries|]; cbv beta iota in IH.
      * destruct IH as [Hok Hall]. split; [|exact Hall].
        intros Hex. apply Exists_cons in Hex as [Hbad|Hex]; [|auto].
        destruct Hbad as [Hbad _]. congruence.
      * apply Exists_cons. right. exact IH.
Qed.

(** After a successful [test_api] call, [check_fulltext_availability]
    raises [TypeError] exactly when one of the first three articles has a
    truthy URL together with a null description or no title.  Otherwise it
    returns one entry for each of the first three articles that has a truthy
    URL, in order and so at most three, each with that article's URL, title
    and source and the length of its description (0 when it has none), and
    with what the [HEAD] probe of that URL answered: [url_accessible] is set
    exactly when the probe answered with status 200, the status and content
    type are those of the answer, and a probe that raised leaves
    [url_accessible] unset and its message under [error]; the sources and
    counts are those of the report. *)
Theorem fulltext_check_outcome (reply : test_reply) (r : report) :
  test_api reply = Succeeded r ->
  match check_fulltext_availability head reply with
  | RaisesTypeError => Exists breaks_fulltext (take 3 (report_articles r))
  | Checked entries sources counts =>
      ~ Exists breaks_fulltext (take 3 (report_articles r)) /\
      Forall2 (fun e p => entry_of (head (fst p) (info_url e)) e (snd p)) entries
        (with_url (take 3 (report_articles r))) /\
      length entries <= 3 /\
      sources = report_sources r /\ counts = source_counts r
  | ApiFailed _ => False
  end.
Proof.
  intros Hrun. unfold check_fulltext_availability. rewrite Hrun.
  pose proof (fulltext_loop_outcome 0 (take 3 (report_articles r))) as Hloop.
  destruct (fulltext_loop head 0 (take 3 (report_articles r))) as [entries|]; [|exact Hloop].
  destruct Hloop as [Hok Hall]. repeat split; auto.
  rewrite (Forall2_length _ _ _ Hall).
  etransitivity; [apply filter_length_le|]. rewrite length_imap, length_take. lia.
Qed.

End FulltextFacts.

Lemma fulltext_check_outcome_witness :
  let a : article :=
    <["url" := Some "http://a.example/1"]> (<["title" := Some "One"]> ∅) in
  let b : article :=
    <["url" := Some "http://b.example/2"]> (<["title" := Some "Two"]> ∅) in
  let head (i : nat) (u : string) :=
    if String.eqb u "http://a.example/1" then Head 200 None else HeadRaises "down" in
  exists ea eb sources counts,
    check_fulltext_availability head (Data (Some 200%Z) None (ResultArray [a; b])) =
      Checked [ea; eb] sources counts /\
    (url_accessible ea, info_status_code ea, info_content_type ea, info_error ea) =
      (true, Some 200%Z, Some "Unknown", None) /\
    (url_accessible eb, info_status_code eb, info_content_type eb, info_error eb) =
      (false, None, None, Some "down") /\
    entry_of (Head 200 None) ea a /\ entry_of (HeadRaises "down") eb b.
Proof.
  intros a b head.
  pose proof (fulltext_check_outcome head (Data (Some 200%Z) None (ResultArray [a; b]))
                _ eq_refl) as H.
  destruct (check_fulltext_availability head (Data (Some 200%Z) None (ResultArray [a; b])))
    as [failed|entries sources counts|] eqn:Hrun;
    [vm_compute in Hrun; discriminate Hrun| |vm_compute in Hrun; discriminate Hrun].
  destruct H as (_ & Hall & _).
  vm_compute in Hrun. injection Hrun as <- <- <-.
  apply Forall2_cons_1 in Hall as [Ha Hall].
  apply Forall2_cons_1 in Hall as [Hb _].
  do 4 eexists. split; [reflexivity|]. split; [reflexivity|]. split; [reflexivity|].
  split; [exact Ha|exact Hb].
Defined.

(** ** The comprehensive search *)

Lemma occurrences_elem (k : option string) (l : list (option string)) :
  1 <= occurrences k l <-> k ∈ l.
Proof.
  unfold occurrences. induction l as [|x l IH]; cbn [List.filter length].
  - split; [lia|]. intros H. apply not_elem_of_nil in H. destruct H.
  - rewrite elem_of_cons.
    destruct (bool_decide_reflect (x = k)) as [->|Hne]; cbn [length].
    + split; [auto|lia].
    + rewrite IH. split; [auto|]. intros [H|H]; [congruence|exact H].
Qed.

Lemma occurrences_nodup (k : option string) (l : list (option string)) :
  NoDup l -> occurrences k l <= 1.
Proof.
  induction 1 as [|x l Hx _ IH]; [unfold occurrences; cbn; lia|].
  unfold occurrences in *. cbn [List.filter].
  destruct (bool_decide_reflect (x = k)) as [->|Hne]; [|exact IH].
  cbn [length].
  destruct (Nat.le_gt_cases 1 (length (List.filter (fun y => bool_decide (y = k)) l)))
    as [Hpos|Hzero]; [|lia].
  apply (occurrences_elem k l) in Hpos. contradiction.
Qed.

Lemma test_api_sources_nodup (reply : test_reply) (r : report) :
  test_api reply = Succeeded r -> NoDup (report_sources r).
Proof.
  unfold test_api. destruct reply as [e| |code msg result]; try discriminate.
  destruct (is_200 code); [|discriminate]. intros [= <-]. cbn [report_sources].
  apply (counter_from _ [] (NoDup_nil_2 (A:=option string))).
Qed.

Lemma tallied_more (n m : nat) (t : tally) : n <= m -> tallied n t -> tallied m t.
Proof.
  intros Hle (Hnodup & Hbound & Hset). repeat split; try apply Hset; [exact Hnodup|].
  intros k. specialize (Hbound k). lia.
Qed.

Lemma record_report_tallied (n : nat) (t : tally) (r : report) :
  NoDup (report_sources r) -> tallied n t -> tallied (S n) (record_report t r).
Proof.
  intros Hsources (Hnodup & Hbound & Hset).
  destruct (counter_from (report_sources r) (all_source_counts t) Hnodup)
    as (Hnodup' & Hcount & _ & _).
  unfold tallied, record_report. cbn [all_sources all_source_counts].
  split; [exact Hnodup'|]. split.
  - intros k. rewrite Hcount.
    pose proof (occurrences_nodup k (report_sources r) Hsources). specialize (Hbound k). lia.
  - intros k. rewrite Hcount, elem_of_union, elem_of_list_to_set, Hset.
    rewrite <- occurrences_elem. lia.
Qed.

Section ComprehensiveFacts.

Variable api : option keyword -> nat -> test_reply.

Lemma scan_pages_tallied (kw : option keyword) (pages : list nat) (n : nat)
    (t : tally) (found : gset (option string)) :
  tallied n t -> tallied (n + length pages) (fst (scan_pages api kw pages t found)).
Proof.
  revert n t found. induction pages as [|page rest IH]; intros n t found Ht.
  - cbn. apply (tallied_more n); [lia|exact Ht].
  - cbn [scan_pages length].
    destruct (test_api (api kw page)) as [r|error code|error] eqn:Hcall;
      try (cbn [fst]; apply (tallied_more n); [lia|exact Ht]).
    replace (n + S (length rest)) with (S n + length rest) by lia.
    apply IH. apply record_report_tallied; [|exact Ht].
    apply (test_api_sources_nodup _ _ Hcall).
Qed.

Lemma scan_keywords_tallied (kws : list keyword) (n : nat) (t t' : tally) :
  tallied n t -> scan_keywords api kws t = Some t' -> tallied (n + 2 * length kws) t'.
Proof.
  revert n t. induction kws as [|kw rest IH]; intros n t Ht Hrun.
  - injection Hrun as <-. apply (tallied_more n); [lia|exact Ht].
  - cbn [scan_keywords] in Hrun.
    pose proof (scan_pages_tallied (Some kw) (seq 1 2) n t ∅ Ht) as Hpages.
    destruct (scan_pages api (Some kw) (seq 1 2) t ∅) as [t1 kw_sources].
    cbn [fst length seq] in Hpages.
    destruct (bool_decide (None ∈ kw_sources)); [discriminate|].
    cbn [length]. replace (n + 2 * S (length rest)) with (n + 2 + 2 * length rest) by lia.
    apply (IH (n + 2) t1 Hpages Hrun).
Qed.

Lemma elem_of_insert_sorted (x s : string) (l : list string) :
  x ∈ insert_sorted s l <-> x = s \/ x ∈ l.
Proof.
  induction l as [|y r IH]; cbn [insert_sorted].
  - rewrite list_elem_of_singleton. split; [auto|]. intros [H|H]; [exact H|].
    apply not_elem_of_nil in H. destruct H.
  - destruct (String.leb s y); rewrite !elem_of_cons; [tauto|]. rewrite IH. tauto.
Qed.

Lemma elem_of_py_sorted (s : gset (option string)) (l : list (option string)) :
  py_sorted s = Some l -> forall k, k ∈ l <-> k ∈ s.
Proof.
  unfold py_sorted.
  destruct (bool_decide_reflect (None ∈ s)) as [Hnone|Hnone].
  - destruct (bool_decide_reflect (size s = 1)) as [Hone|]; [|discriminate].
    intros [= <-] k. rewrite list_elem_of_singleton. split.
    + intros ->. exact Hnone.
    + intros Hk. apply (size_singleton_inv s k None Hone Hk Hnone).
  - intros [= <-] k. rewrite list_elem_of_fmap.
    assert (Hsorted : forall (x : string) (strings : list string),
              x ∈ fold_right insert_sorted [] strings <-> x ∈ strings).
    { intros x strings. induction strings as [|y r IH]; [reflexivity|].
      cbn [fold_right]. rewrite elem_of_insert_sorted, elem_of_cons, IH. reflexivity. }
    split.
    + intros (x & -> & Hx). apply Hsorted, list_elem_of_omap in Hx as (v & Hv & Hid).
      apply elem_of_elements in Hv. cbn in Hid. congruence.
    + intros Hk. destruct k as [x|]; [|contradiction].
      exists x. split; [reflexivity|]. apply Hsorted, list_elem_of_omap.
      exists (Some x). split; [apply elem_of_elements; exact Hk|reflexivity].
Qed.

(** In the summary [comprehensive_source_search] returns, the count of a
    source is a number of API calls, not of articles: it is at most 18, the
    number of calls the function can make, however many articles the source
    has; no source has two entries; and the sources listed are exactly
    those with a positive count. *)
Theorem summary_counts_calls (s : summary) :
  comprehensive_source_search api = Some s ->
  NoDup (map fst (summary_counts s)) /\
  (forall k, count_of (summary_counts s) k <= 18) /\
  (forall k, k ∈ summary_sources s <-> 1 <= count_of (summary_counts s) k).
Proof.
  unfold comprehensive_source_search. intros Hrun.
  assert (H0 : tallied 0 (mkTally ∅ [] 0)).
  { repeat split; cbn; try constructor; try lia.
    intros H. apply not_elem_of_empty in H. destruct H. }
  pose proof (scan_pages_tallied None (seq 1 5) 0 _ ∅ H0) as H1.
  destruct (scan_pages api None (seq 1 5) (mkTally ∅ [] 0) ∅) as [t1 found1].
  cbn [fst length seq] in H1.
  pose proof (scan_pages_tallied (Some Exhibition) (seq 1 5) _ t1 ∅ H1) as H2.
  destruct (scan_pages api (Some Exhibition) (seq 1 5) t1 ∅) as [t2 keyword_sources].
  cbn [fst length seq] in H2.
  destruct (py_sorted keyword_sources); [|discriminate].
  destruct (scan_keywords api [Tourism; Economy; Technology; Education] t2) as [t3|] eqn:H3;
    [|discriminate].
  apply (scan_keywords_tallied _ _ t2 t3 H2) in H3. cbn [length] in H3.
  destruct (py_sorted (all_sources t3)) as [sorted|] eqn:Hsorted; [|discriminate].
  injection Hrun as <-. cbn [summary_counts summary_sources].
  destruct H3 as (Hnodup & Hbound & Hset).
  split; [exact Hnodup|]. split; [exact Hbound|].
  intros k. rewrite (elem_of_py_sorted _ _ Hsorted k). apply Hset.
Qed.

End ComprehensiveFacts.

Lemma summary_counts_calls_witness :
  let a : article := <["source" := Some "nfw"]> ∅ in
  let api (kw : option keyword) (page : nat) :=
    match kw with
    | None => Data (Some 200%Z) None (ResultArray [a; a; a])
    | Some _ => NotJSON
    end in
  comprehensive_source_search api =
    Some (mkSummary [Some "nfw"] [(Some "nfw", 5)] 15) /\
  count_of [(Some "nfw", 5)] (Some "nfw") <= 18.
Proof.
  intros a api.
  assert (Hrun : comprehensive_source_search api
                 = Some (mkSummary [Some "nfw"] [(Some "nfw", 5)] 15)).
  { vm_compute. reflexivity. }
  split; [exact Hrun|].
  exact (proj1 (proj2 (summary_counts_calls api _ Hrun)) (Some "nfw")).
Defined.

(** ** The size of the batch *)

Lemma test_urls_bound (key : key_file) (reply reply2 : api_reply) (urls : list string) :
  get_test_urls_from_api key reply reply2 = Done urls -> length urls <= 8.
Proof.
  unfold get_test_urls_from_api. intros Hrun.
  destruct key as [k| |e]; [|injection Hrun as <-; cbn; lia|discriminate].
  destruct reply as [|code msg result]; [injection Hrun as <-; cbn; lia|].
  destruct (is_200 code); [|injection Hrun as <-; cbn; lia].
  pose proof (collect_length 5 (articles_of result) [] ∅) as Hfirst.
  destruct (collect 5 (articles_of result) [] ∅) as [urls1 seen1].
  cbn [fst length] in Hfirst. specialize (Hfirst ltac:(lia)).
  destruct reply2 as [|code2 msg2 result2]; [injection Hrun as <-; cbn; lia|].
  destruct (is_200 code2).
  - pose proof (collect_length 8 (articles_of result2) urls1 seen1) as Hsecond.
    destruct (collect 8 (articles_of result2) urls1 seen1) as [urls2 seen2].
    cbn [fst] in Hsecond. specialize (Hsecond ltac:(lia)).
    injection Hrun as <-. rewrite length_map. exact Hsecond.
  - injection Hrun as <-. rewrite length_map. lia.
Qed.

(** A run of [main] that ends normally returns between 1 and 8 results:
    the URLs of the API are at most 8, and the three built-in ones take their
    place when there is none. *)
Theorem main_batch_size
    (check : string -> bool) (get : nat -> string -> response) (parse : string -> parsed)
    (key : key_file) (reply reply2 : api_reply)
    (dump : list ExtractionResult -> option string) (results : list ExtractionResult) :
  main check get parse key reply reply2 dump = Done results ->
  1 <= length results <= 8.
Proof.
  unfold main. intros Hrun.
  destruct (get_test_urls_from_api key reply reply2) as [urls|e] eqn:Hurls; [|discriminate].
  pose proof (test_urls_bound key reply reply2 urls Hurls) as Hbound.
  set (test_urls := match urls with [] => fallback_urls | _ => urls end) in Hrun.
  assert (Hsize : 1 <= length test_urls <= 8).
  { unfold test_urls. destruct urls as [|u rest]; [cbn; lia|cbn [length] in *; lia]. }
  destruct (crawl_from check get parse 0 test_urls) as [rs|e] eqn:Hcrawl; [|discriminate].
  destruct (dump rs); [discriminate|]. injection Hrun as <-.
  destruct (crawl_from_results check get parse 0 test_urls rs Hcrawl) as (Hmap & _).
  rewrite <- Hmap in Hsize. rewrite length_map in Hsize. exact Hsize.
Qed.

Lemma main_batch_size_witness :
  let a (u s : string) : article := <["url" := Some u]> (<["source" := Some s]> ∅) in
  exists results,
    main (fun _ => true) (fun _ _ => RaisesOther "offline") (fun _ => Document [])
      (KeyText "k")
      (ApiData (Some 200%Z) None
         (ResultArray [a "http://a.example/1" "s1"; a "http://b.example/2" "s2"]))
      (ApiData None None ResultOther)
      (fun _ => None) = Done results /\
    length results = 2 /\ 1 <= length results <= 8.
Proof.
  intros a.
  destruct (main (fun _ => true) (fun _ _ => RaisesOther "offline") (fun _ => Document [])
              (KeyText "k")
              (ApiData (Some 200%Z) None
                 (ResultArray [a "http://a.example/1" "s1"; a "http://b.example/2" "s2"]))
              (ApiData None None ResultOther)
              (fun _ => None)) as [results|e] eqn:Hrun;
    [|vm_compute in Hrun; discriminate Hrun].
  exists results. split; [reflexivity|].
  pose proof (main_batch_size _ _ _ _ _ _ _ _ Hrun) as Hsize.
  vm_compute in Hrun. injection Hrun as <-.
  split; [reflexivity|exact Hsize].
Defined.
